(** * Weekly meal planner: selection, variety repair and shopping aggregation

    A shallow embedding of [src/lib/planner.ts] and the properties its
    specification states about it.

    Modelling decisions, all visible in the definitions below:
    - the recipe catalog ([recipes], imported from [./recipes]) is a
      parameter of the development: every theorem holds for every catalog;
    - [Math.random] is an oracle [random : nat -> nat] read at an increasing
      call index; the draw [Math.floor(Math.random() * (i + 1))] is
      [random n mod (i + 1)], which ranges over exactly the indices [0..i];
    - [Date.now()] is the parameter [now]; the [date-fns] formatting of a
      day label is the parameter [formatDay], which may fail (an invalid
      [weekOf] makes [format] throw);
    - [localeCompare] is the parameter [localeCompare];
    - a JS [Set<string>] is a [gset string], the history object a
      [gmap string Z], the insertion-ordered [Map] of the aggregator an
      association list;
    - request counts are integers ([Z]); ingredient quantities are exact
      rationals ([Q]) in place of doubles, so sums and rounding are exact;
    - [toLowerCase] acts on the ASCII letters. *)

From stdpp Require Import gmap strings list pretty.
From Stdlib Require Import Ascii QArith Qround Lqa Sorted.

Local Open Scope Z_scope.
Local Open Scope string_scope.
Local Open Scope list_scope.

(** ** Data model *)

(** Modelled from the spec: the type [MealType] that [./recipes] exports;
    the file is not among the sources. The specification gives a recipe
    "one of breakfast/lunch/dinner", the three literals [generateWeeklyPlan]
    uses. *)
Inductive MealType := breakfast | lunch | dinner.

#[global] Instance MealType_eq_dec : EqDecision MealType.
Proof. solve_decision. Defined.

(** The text a template literal prints for a meal type. *)
Definition mealTypeName (m : MealType) : string :=
  match m with
  | breakfast => "breakfast"
  | lunch => "lunch"
  | dinner => "dinner"
  end.

(** Modelled from the spec: the entries of [recipe.ingredients], declared in
    [./recipes]: an item name, an optional quantity and an optional unit,
    the fields [aggregateShopping] reads. *)
Module Ingredient.
Record t := mk { item : string; quantity : option Q; unit : option string }.
End Ingredient.

(** Modelled from the spec: the type [Recipe] that [./recipes] exports, with
    the fields the planner and the page read. *)
Module Recipe.
Record t := mk {
  id : string;
  name : string;
  mealType : MealType;
  cuisine : string;
  protein : string;
  servings : Z;
  summary : string;
  url : string;
  ingredients : list Ingredient.t
}.
End Recipe.

Module PlannerRequest.
Record t := mk {
  breakfasts : Z;
  lunches : Z;
  dinners : Z;
  weekOf : option string
}.
End PlannerRequest.

Module PlannedMeal.
Record t := mk {
  dayIndex : nat;
  mealType : MealType;
  recipe : Recipe.t;
  dateLabel : string
}.
End PlannedMeal.

Module ShoppingLineItem.
Record t := mk { item : string; quantity : option Q; unit : option string }.
End ShoppingLineItem.

Module PlannerResponse.
Record t := mk {
  meals : list PlannedMeal.t;
  shoppingList : list ShoppingLineItem.t;
  updatedHistory : gmap string Z
}.
End PlannerResponse.

(** A call either returns a value or throws an [Error] with a message. *)
Inductive outcome (A : Type) :=
  | Ok (a : A)
  | Throw (message : string).
Arguments Ok {A} a.
Arguments Throw {A} message.

Definition is_beef (recipe : Recipe.t) : bool :=
  bool_decide (Recipe.protein recipe = "beef").

(** [["spanish", "mexican"].includes(recipe.cuisine)] *)
Definition is_iberian (recipe : Recipe.t) : bool :=
  bool_decide (Recipe.cuisine recipe ∈ ["spanish"; "mexican"]).

Definition ids (plan : list Recipe.t) : list string := map Recipe.id plan.

Definition beef_count (plan : list Recipe.t) : nat :=
  length (filter (fun r => is_beef r = true) plan).

(** ** The shuffle *)

Section Shuffle.
Variable random : nat -> nat.
Context {T : Type}.

(** [[copy[i], copy[j]] = [copy[j], copy[i]]]; both indices are always
    inside the array when [shuffle] runs. *)
Definition swap (i j : nat) (copy : list T) : list T :=
  match copy !! i, copy !! j with
  | Some x, Some y => <[j := x]> (<[i := y]> copy)
  | _, _ => copy
  end.

(** The loop [for (i = ...; i > 0; i -= 1)], started at [i]; [n] counts
    the calls made to [Math.random] so far. *)
Fixpoint shuffle_loop (i : nat) (copy : list T) (n : nat) : list T * nat :=
  match i with
  | O => (copy, n)
  | S i' =>
      let j := (random n mod (i + 1))%nat in
      shuffle_loop i' (swap i j copy) (S n)
  end.

Definition shuffle (arr : list T) (n : nat) : list T * nat :=
  shuffle_loop (length arr - 1) arr n.
End Shuffle.

(** ** Slot selection and variety repair *)

Section Planner.
Variable recipes : list Recipe.t.
Variable random : nat -> nat.

(** The mutable state one run threads through its calls: the shared
    [chosen] set and the number of [Math.random] calls made. *)
Record State := mkState { chosen : gset string; calls : nat }.

(** The body of [candidates.forEach] in [pickRecipes], on the locals
    [selections], [beefUsed] and the shared [chosen]. *)
Definition pick_step (count : Z)
    (acc : list Recipe.t * bool * gset string) (recipe : Recipe.t)
    : list Recipe.t * bool * gset string :=
  let '(selections, beefUsed, chosen) := acc in
  if bool_decide (Z.of_nat (length selections) >= count) then acc
  else if bool_decide (Recipe.id recipe ∈ chosen) then acc
  else if is_beef recipe && beefUsed then acc
  else (selections ++ [recipe],
        if is_beef recipe then true else beefUsed,
        {[Recipe.id recipe]} ∪ chosen).

Definition pick_filter (mealType : MealType) (recentHistory : gset string)
    : list Recipe.t :=
  filter (fun recipe => Recipe.mealType recipe = mealType
                        ∧ Recipe.id recipe ∉ recentHistory) recipes.

Definition pick_error (mealType : MealType) : string :=
  "Not enough " +:+ mealTypeName mealType
    +:+ " recipes available without repeats or beef overage.".

Definition pickRecipes (mealType : MealType) (count : Z)
    (recentHistory : gset string) (beefAlreadyUsed : bool) (st : State)
    : outcome (list Recipe.t * bool * State) :=
  let '(candidates, n) :=
    shuffle random (pick_filter mealType recentHistory) (calls st) in
  let '(selections, beefUsed, chosen') :=
    fold_left (pick_step count) candidates ([], beefAlreadyUsed, chosen st) in
  if bool_decide (Z.of_nat (length selections) < count)
  then Throw (pick_error mealType)
  else Ok (selections, beefUsed, mkState chosen' n).

(** The predicate given to [find] in [ensureSpanishOrMexican]. *)
Definition replaces (toReplace : Recipe.t) (recentHistory chosen : gset string)
    (beefUsed : bool) (recipe : Recipe.t) : bool :=
  if bool_decide (Recipe.mealType recipe ≠ Recipe.mealType toReplace) then false
  else if negb (is_iberian recipe) then false
  else if bool_decide (Recipe.id recipe ∈ recentHistory)
          || bool_decide (Recipe.id recipe ∈ chosen) then false
  else if is_beef recipe && beefUsed then false
  else true.

Definition substitute (toReplace candidate : Recipe.t) (plan : list Recipe.t)
    : list Recipe.t :=
  map (fun recipe =>
         if bool_decide (Recipe.id recipe = Recipe.id toReplace)
         then candidate else recipe) plan.

Definition cuisine_error : string :=
  "No Spanish or Mexican recipes available that satisfy the rules.".

(** The loop [for (const toReplace of plan)], at the entries [rest] still
    to be tried. *)
Fixpoint ensure_loop (rest plan : list Recipe.t) (recentHistory : gset string)
    (beefUsed : bool) (st : State) : outcome (list Recipe.t * bool * State) :=
  match rest with
  | [] => Throw cuisine_error
  | toReplace :: rest' =>
      let '(shuffled, n) := shuffle random recipes (calls st) in
      match find (replaces toReplace recentHistory (chosen st) beefUsed) shuffled with
      | Some candidate =>
          Ok (substitute toReplace candidate plan,
              if is_beef candidate then true else beefUsed,
              mkState ({[Recipe.id candidate]}
                         ∪ (chosen st ∖ {[Recipe.id toReplace]})) n)
      | None => ensure_loop rest' plan recentHistory beefUsed (mkState (chosen st) n)
      end
  end.

Definition ensureSpanishOrMexican (plan : list Recipe.t)
    (recentHistory : gset string) (beefUsed : bool) (st : State)
    : outcome (list Recipe.t * bool * State) :=
  if existsb is_iberian plan then Ok (plan, beefUsed, st)
  else ensure_loop plan plan recentHistory beefUsed st.
End Planner.

(** ** Shopping aggregation *)

(** [String.prototype.toLowerCase], on the ASCII letters. *)
Definition lower_ascii (c : ascii) : ascii :=
  let n := nat_of_ascii c in
  if bool_decide (65 ≤ n ≤ 90)%nat then ascii_of_nat (n + 32) else c.

Fixpoint toLowerCase (s : string) : string :=
  match s with
  | EmptyString => EmptyString
  | String c s' => String (lower_ascii c) (toLowerCase s')
  end.

(** A quantity is truthy when it is present and not zero. *)
Definition truthy (quantity : option Q) : bool :=
  match quantity with
  | Some q => negb (Qeq_bool q 0)
  | None => false
  end.

(** [Math.round(x * 100) / 100]; [Math.round] rounds halves upwards. *)
Definition round2 (x : Q) : Q :=
  Qred (inject_Z (Qfloor (x * inject_Z 100 + (1 # 2))) / inject_Z 100).

(** [a ?? b] *)
Definition nullish {A : Type} (a b : option A) : option A :=
  match a with
  | Some _ => a
  | None => b
  end.

(** The insertion-ordered [Map<string, ShoppingLineItem>]. *)
Fixpoint map_get (key : string) (m : list (string * ShoppingLineItem.t))
    : option ShoppingLineItem.t :=
  match m with
  | [] => None
  | (k, v) :: m' => if bool_decide (k = key) then Some v else map_get key m'
  end.

Fixpoint map_set (key : string) (value : ShoppingLineItem.t)
    (m : list (string * ShoppingLineItem.t)) : list (string * ShoppingLineItem.t) :=
  match m with
  | [] => [(key, value)]
  | (k, v) :: m' =>
      if bool_decide (k = key) then (k, value) :: m'
      else (k, v) :: map_set key value m'
  end.

(** The body of [recipe.ingredients.forEach]. *)
Definition add_ingredient (m : list (string * ShoppingLineItem.t))
    (ingredient : Ingredient.t) : list (string * ShoppingLineItem.t) :=
  let key := toLowerCase (Ingredient.item ingredient) in
  match map_get key m with
  | Some existing =>
      if truthy (ShoppingLineItem.quantity existing)
         && truthy (Ingredient.quantity ingredient)
      then
        map_set key
          (ShoppingLineItem.mk
             (ShoppingLineItem.item existing)
             (Some (round2 (default 0%Q (ShoppingLineItem.quantity existing)
                            + default 0%Q (Ingredient.quantity ingredient))))
             (ShoppingLineItem.unit existing)) m
      else
        map_set key
          (ShoppingLineItem.mk
             (ShoppingLineItem.item existing)
             (nullish (ShoppingLineItem.quantity existing)
                      (Ingredient.quantity ingredient))
             (nullish (ShoppingLineItem.unit existing)
                      (Ingredient.unit ingredient))) m
  | None =>
      map_set key
        (ShoppingLineItem.mk (Ingredient.item ingredient)
           (Ingredient.quantity ingredient) (Ingredient.unit ingredient)) m
  end.

Definition add_recipe (m : list (string * ShoppingLineItem.t))
    (recipe : Recipe.t) : list (string * ShoppingLineItem.t) :=
  fold_left add_ingredient (Recipe.ingredients recipe) m.

Section Sort.
(** [a.localeCompare(b)]: negative, zero or positive. *)
Variable localeCompare : string -> string -> Z.

(** [Array.prototype.sort] is stable: an element stays ahead of the later
    elements it compares equal to. *)
Fixpoint sort_insert (a : ShoppingLineItem.t) (l : list ShoppingLineItem.t)
    : list ShoppingLineItem.t :=
  match l with
  | [] => [a]
  | b :: l' =>
      if bool_decide
           (localeCompare (ShoppingLineItem.item a) (ShoppingLineItem.item b) <= 0)
      then a :: b :: l'
      else b :: sort_insert a l'
  end.

Definition sort_items (l : list ShoppingLineItem.t) : list ShoppingLineItem.t :=
  foldr sort_insert [] l.

Definition aggregateShopping (meals : list Recipe.t) : list ShoppingLineItem.t :=
  sort_items (map snd (fold_left add_recipe meals [])).
End Sort.

(** ** Plan generation *)

#[global] Instance outcome_ret : MRet outcome := fun _ a => Ok a.
#[global] Instance outcome_bind : MBind outcome := fun _ _ f m =>
  match m with
  | Ok a => f a
  | Throw message => Throw message
  end.

Section Generate.
Variable recipes : list Recipe.t.
Variable random : nat -> nat.
Variable now : Z.
(** [format(addDays(startDate, i), "EEE, MMM d")] for the start date that
    [weekOf] selects; [None] when [format] throws. *)
Variable formatDay : option string -> nat -> option string.
Variable localeCompare : string -> string -> Z.

Definition date_error : string := "Invalid time value".

Fixpoint labels_from (weekOf : option string) (i : nat) (days : nat)
    : outcome (list string) :=
  match days with
  | O => Ok []
  | S days' =>
      match formatDay weekOf i with
      | Some label =>
          labels ← labels_from weekOf (S i) days'; Ok (label :: labels)
      | None => Throw date_error
      end
  end.

Definition buildDateLabels (weekOf : option string) (totalDays : Z)
    : outcome (list string) :=
  labels_from weekOf 0 (Z.to_nat totalDays).

(** [addMeals]; the label array is never empty, so the fallback
    [dateLabels[dateLabels.length - 1]] is always a string. *)
Definition addMeals (dateLabels : list string) (mealType : MealType)
    (selections : list Recipe.t) : list PlannedMeal.t :=
  imap (fun index recipe =>
          PlannedMeal.mk index mealType recipe
            (match dateLabels !! index with
             | Some label => label
             | None => default "" (last dateLabels)
             end)) selections.

Definition of_type (mealType : MealType) (plan : list Recipe.t) : list Recipe.t :=
  filter (fun recipe => Recipe.mealType recipe = mealType) plan.

Definition record_history (plan : list Recipe.t) (history : gmap string Z)
    : gmap string Z :=
  fold_left (fun updated recipe => <[Recipe.id recipe := now]> updated)
    plan history.

Definition generateWeeklyPlan (request : PlannerRequest.t)
    (recentHistory : gmap string Z) : outcome PlannerResponse.t :=
  let recentSet : gset string := dom recentHistory in
  let st := mkState ∅ 0 in
  '(breakfastSel, beefUsed, st) ←
    pickRecipes recipes random breakfast (PlannerRequest.breakfasts request)
      recentSet false st;
  '(lunchSel, beefUsed, st) ←
    pickRecipes recipes random lunch (PlannerRequest.lunches request)
      recentSet beefUsed st;
  '(dinnerSel, beefUsed, st) ←
    pickRecipes recipes random dinner (PlannerRequest.dinners request)
      recentSet beefUsed st;
  let allRecipes := breakfastSel ++ lunchSel ++ dinnerSel in
  '(plan, _, _) ← ensureSpanishOrMexican recipes random allRecipes recentSet beefUsed st;
  let totalDays :=
    Z.max (Z.max (Z.max (PlannerRequest.breakfasts request)
                        (PlannerRequest.lunches request))
                 (PlannerRequest.dinners request)) 5 in
  dateLabels ← buildDateLabels (PlannerRequest.weekOf request) totalDays;
  let meals :=
    addMeals dateLabels breakfast (of_type breakfast plan)
    ++ addMeals dateLabels lunch (of_type lunch plan)
    ++ addMeals dateLabels dinner (of_type dinner plan) in
  Ok (PlannerResponse.mk meals
        (aggregateShopping localeCompare plan)
        (record_history plan recentHistory)).
End Generate.

(** ** History persistence *)

Definition HISTORY_KEY : string := "med-planner-history".
Definition DAYS_TO_AVOID : Z := 30.

Section Storage.
(** [typeof window !== "undefined"] *)
Variable window : bool.
(** [JSON.parse(stored) as HistoryRecord], which throws on a text that is not
    JSON, and [JSON.stringify]. The stored text is taken to hold an object
    of numbers, as [persistHistory] writes it. *)
Variable parse : string -> outcome (gmap string Z).
Variable stringify : gmap string Z -> string.

(** [localStorage] is a map from keys to texts; the function returns the
    history together with the storage as it leaves it. *)
Definition loadRecentHistory (now : Z) (localStorage : gmap string string)
    : outcome (gmap string Z * gmap string string) :=
  if negb window then Ok (∅, localStorage)
  else
    match localStorage !! HISTORY_KEY with
    | None => Ok (∅, localStorage)
    | Some stored =>
        if bool_decide (stored = "") then Ok (∅, localStorage)
        else
          parsed ← parse stored;
          let cutoff := now - DAYS_TO_AVOID * 24 * 60 * 60 * 1000 in
          let filtered : gmap string Z :=
            filter (fun entry => entry.2 >= cutoff) parsed in
          if bool_decide (size filtered ≠ size parsed)
          then Ok (filtered, <[HISTORY_KEY := stringify filtered]> localStorage)
          else Ok (filtered, localStorage)
    end.

Definition persistHistory (history : gmap string Z)
    (localStorage : gmap string string) : gmap string string :=
  if negb window then localStorage
  else <[HISTORY_KEY := stringify history]> localStorage.
End Storage.

(** ** Notions used in the statements *)

Definition b2n (b : bool) : nat := if b then 1%nat else 0%nat.

(** An entry admits a replacement when some catalog recipe passes the
    test that [find] applies. *)
Definition admits (recipes : list Recipe.t) (recent chosen : gset string)
    (beefUsed : bool) (toReplace : Recipe.t) : Prop :=
  ∃ candidate, candidate ∈ recipes
               ∧ replaces toReplace recent chosen beefUsed candidate = true.

(** The recipes of a response, in the order of [meals]. *)
Definition planned (response : PlannerResponse.t) : list Recipe.t :=
  map PlannedMeal.recipe (PlannerResponse.meals response).

(** The case-insensitive key of an ingredient entry and of a list line. *)
Definition ingredient_key (ingredient : Ingredient.t) : string :=
  toLowerCase (Ingredient.item ingredient).

Definition item_key (line : ShoppingLineItem.t) : string :=
  toLowerCase (ShoppingLineItem.item line).

Definition all_ingredients (meals : list Recipe.t) : list Ingredient.t :=
  meals ≫= Recipe.ingredients.

(** A map whose keys are distinct and each the key of the line it holds. *)
Definition keyed (m : list (string * ShoppingLineItem.t)) : Prop :=
  NoDup (map fst m) ∧ Forall (fun kv => item_key kv.2 = kv.1) m.

(** The first entry with the key [k] among [ingredients], in reading
    order. *)
Definition first_with (k : string) (ingredients : list Ingredient.t)
    : option Ingredient.t :=
  find (fun i => bool_decide (ingredient_key i = k)) ingredients.

(** [a] is not sorted after [b] by the comparator of the list. *)
Definition line_le (localeCompare : string -> string -> Z)
    (a b : ShoppingLineItem.t) : Prop :=
  localeCompare (ShoppingLineItem.item a) (ShoppingLineItem.item b) <= 0.

(** The line that replaces [existing] when [ingredient] has its key. *)
Definition merged (existing : ShoppingLineItem.t) (ingredient : Ingredient.t)
    : ShoppingLineItem.t :=
  if truthy (ShoppingLineItem.quantity existing)
     && truthy (Ingredient.quantity ingredient)
  then ShoppingLineItem.mk (ShoppingLineItem.item existing)
         (Some (round2 (default 0%Q (ShoppingLineItem.quantity existing)
                        + default 0%Q (Ingredient.quantity ingredient))))
         (ShoppingLineItem.unit existing)
  else ShoppingLineItem.mk (ShoppingLineItem.item existing)
         (nullish (ShoppingLineItem.quantity existing)
                  (Ingredient.quantity ingredient))
         (nullish (ShoppingLineItem.unit existing)
                  (Ingredient.unit ingredient)).

(** The selections that the scan of [pickRecipes] has accepted when it has
    gone through every filtered candidate. *)
Definition accepted (recipes : list Recipe.t) (random : nat -> nat)
    (mealType : MealType) (count : Z) (recent : gset string) (b : bool)
    (st : State) : list Recipe.t :=
  (fold_left (pick_step count)
     (shuffle random (pick_filter recipes mealType recent) (calls st)).1
     ([], b, chosen st)).1.1.


(** A selection that fills a slot of [count] recipes within the rules. *)
Definition fills (recipes : list Recipe.t) (mealType : MealType) (count : Z)
    (recent chosen : gset string) (beefUsed : bool) (sel : list Recipe.t)
    : Prop :=
  Z.of_nat (length sel) = count
  ∧ (∀ r, r ∈ sel → r ∈ recipes ∧ Recipe.mealType r = mealType
                    ∧ Recipe.id r ∉ recent)
  ∧ NoDup (ids sel)
  ∧ (∀ x, x ∈ ids sel → x ∉ chosen)
  ∧ (beef_count sel + b2n beefUsed ≤ 1)%nat.

(** ** A sample catalog

    A small catalog on which the definitions run; the statements below are
    instantiated on it. *)

Module Sample.
Definition entry (item : string) (quantity : option Q) (unit : option string)
    : Ingredient.t :=
  Ingredient.mk item quantity unit.

Definition recipe (id : string) (mealType : MealType) (cuisine protein : string)
    (ingredients : list Ingredient.t) : Recipe.t :=
  Recipe.mk id id mealType cuisine protein 2 "" "" ingredients.

Definition shakshuka : Recipe.t :=
  recipe "shakshuka" breakfast "israeli" "egg"
    [entry "Tomato" (Some 1%Q) (Some "cup"); entry "Egg" (Some 2%Q) None].
Definition tortilla : Recipe.t :=
  recipe "tortilla" breakfast "spanish" "egg"
    [entry "egg" (Some 4%Q) None; entry "Potato" (Some 2%Q) None].
Definition gazpacho : Recipe.t :=
  recipe "gazpacho" lunch "spanish" "vegetarian"
    [entry "tomato" (Some 2%Q) (Some "cup"); entry "Olive oil" None None].
Definition greek_salad : Recipe.t :=
  recipe "greek-salad" lunch "greek" "vegetarian"
    [entry "Tomato" (Some (1 # 2)%Q) (Some "cup"); entry "olive oil" None (Some "tbsp")].
Definition kofta : Recipe.t :=
  recipe "kofta" dinner "turkish" "beef" [entry "Onion" (Some 1%Q) None].
Definition carne_asada : Recipe.t :=
  recipe "carne-asada" dinner "mexican" "beef" [entry "Lime" (Some 2%Q) None].
Definition sea_bass : Recipe.t :=
  recipe "sea-bass" dinner "italian" "fish" [entry "lemon" (Some 1%Q) None].
Definition fish_tacos : Recipe.t :=
  recipe "fish-tacos" dinner "mexican" "fish" [entry "lime" (Some 1%Q) None].

Definition catalog : list Recipe.t :=
  [shakshuka; tortilla; gazpacho; greek_salad; kofta; carne_asada; sea_bass;
   fish_tacos].

(** The draws of one run, and one that always draws index 0. *)
Definition draws (n : nat) : nat := (3 * n + 1)%nat.
Definition zeros (n : nat) : nat := 0%nat.

Definition now : Z := 1767225600000.

Definition formatDay (weekOf : option string) (i : nat) : option string :=
  Some (nth i ["Mon"; "Tue"; "Wed"; "Thu"; "Fri"; "Sat"; "Sun"] "Sun").

(** An ordinal comparison of the lower-cased names, standing in for the
    platform's collation. *)
Definition localeCompare (a b : string) : Z :=
  match String.compare (toLowerCase a) (toLowerCase b) with
  | Lt => -1
  | Eq => 0
  | Gt => 1
  end.

Definition request : PlannerRequest.t := PlannerRequest.mk 1 1 2 None.

Definition history : gmap string Z := {[ "tortilla" := 1766000000000 ]}.

Definition run : outcome PlannerResponse.t :=
  generateWeeklyPlan catalog draws now formatDay localeCompare request history.

Definition response : PlannerResponse.t :=
  match run with
  | Ok response => response
  | Throw _ => PlannerResponse.mk [] [] ∅
  end.

(** A second run, whose draws put the beef dinner into the plan. *)
Definition run_zeros : outcome PlannerResponse.t :=
  generateWeeklyPlan catalog zeros now formatDay localeCompare request ∅.

Definition response_zeros : PlannerResponse.t :=
  match run_zeros with
  | Ok response => response
  | Throw _ => PlannerResponse.mk [] [] ∅
  end.
End Sample.

(** A storage for the sample runs: a rendering of histories as text, and a
    reader for the texts of the two sample histories. *)
Module SampleStore.
Definition stringify (history : gmap string Z) : string :=
  "{" +:+ foldr (fun entry text => entry.1 +:+ ":" +:+ pretty entry.2 +:+ ";" +:+ text)
            "}" (map_to_list history).

Definition parse (text : string) : outcome (gmap string Z) :=
  if bool_decide (text = stringify Sample.history) then Ok Sample.history
  else if bool_decide
            (text = stringify (PlannerResponse.updatedHistory Sample.response))
       then Ok (PlannerResponse.updatedHistory Sample.response)
       else Throw "Unexpected token".

(** A storage that holds the sample history, and a time a week after its
    only entry. *)
Definition localStorage : gmap string string :=
  {[ HISTORY_KEY := stringify Sample.history ]}.
Definition week_later : Z := 1766000000000 + 7 * 24 * 60 * 60 * 1000.

(** The plan of the week after the sample run, from the history that run
    returned, and the storage that holds that history. *)
Definition next_week : Z := Sample.now + 7 * 24 * 60 * 60 * 1000.
Definition next_quarter : Z := Sample.now + 90 * 24 * 60 * 60 * 1000.

Definition saved : gmap string string :=
  persistHistory true stringify (PlannerResponse.updatedHistory Sample.response) ∅.

Definition second_run : outcome PlannerResponse.t :=
  generateWeeklyPlan Sample.catalog Sample.zeros next_week Sample.formatDay
    Sample.localeCompare (PlannerRequest.mk 0 0 1 None)
    (PlannerResponse.updatedHistory Sample.response).

Definition second_response : PlannerResponse.t :=
  match second_run with
  | Ok response => response
  | Throw _ => PlannerResponse.mk [] [] ∅
  end.
End SampleStore.

(** Recipes for the aggregator. *)
Module Pantry.
Definition paella : Recipe.t :=
  Sample.recipe "paella" dinner "spanish" "chicken"
    [Sample.entry "rice" (Some 1%Q) (Some "cup")].
Definition risotto : Recipe.t :=
  Sample.recipe "risotto" dinner "italian" "vegetarian"
    [Sample.entry "rice" (Some 200%Q) (Some "g")].

(** One recipe that lists salt twice: once to taste, written as a quantity
    of zero, and once measured. *)
Definition brine : Recipe.t :=
  Sample.recipe "brine" dinner "greek" "vegetarian"
    [Sample.entry "salt" (Some 0%Q) None;
     Sample.entry "Salt" (Some 5%Q) (Some "tsp")].
End Pantry.

(** * Properties *)

(** ** The shuffle returns a permutation, whatever the draws *)

Section ShuffleFacts.
Variable random : nat -> nat.
Context {T : Type}.

Lemma swap_Permutation (i j : nat) (copy : list T) : swap i j copy ≡ₚ copy.
Proof.
  unfold swap.
  destruct (copy !! i) as [x|] eqn:Hi; [|done].
  destruct (copy !! j) as [y|] eqn:Hj; [|done].
  by apply Permutation_insert_swap.
Qed.

Lemma shuffle_loop_Permutation (i : nat) (copy : list T) (n : nat) :
  (shuffle_loop random i copy n).1 ≡ₚ copy.
Proof.
  revert copy n. induction i as [|i IH]; intros copy n; simpl; [done|].
  rewrite IH. apply swap_Permutation.
Qed.

Lemma shuffle_Permutation (arr : list T) (n : nat) :
  (shuffle random arr n).1 ≡ₚ arr.
Proof. apply shuffle_loop_Permutation. Qed.

Lemma shuffle_elem_of (arr : list T) (n : nat) (x : T) :
  x ∈ (shuffle random arr n).1 ↔ x ∈ arr.
Proof. by rewrite shuffle_Permutation. Qed.
End ShuffleFacts.

(** ** Counting beef and reading identifiers *)

Lemma beef_count_app (l1 l2 : list Recipe.t) :
  beef_count (l1 ++ l2) = (beef_count l1 + beef_count l2)%nat.
Proof. unfold beef_count. by rewrite filter_app, length_app. Qed.

Lemma beef_count_cons (r : Recipe.t) (l : list Recipe.t) :
  beef_count (r :: l) = (b2n (is_beef r) + beef_count l)%nat.
Proof.
  unfold beef_count. rewrite filter_cons.
  destruct (decide (is_beef r = true)) as [->|Hn]; simpl; [done|].
  by destruct (is_beef r).
Qed.

Lemma beef_count_nil : beef_count [] = 0%nat.
Proof. done. Qed.

Lemma beef_count_Permutation (l1 l2 : list Recipe.t) :
  l1 ≡ₚ l2 → beef_count l1 = beef_count l2.
Proof. intros H. unfold beef_count. by rewrite H. Qed.

Lemma ids_app (l1 l2 : list Recipe.t) : ids (l1 ++ l2) = ids l1 ++ ids l2.
Proof. apply map_app. Qed.

Lemma elem_of_ids (x : string) (l : list Recipe.t) :
  x ∈ ids l ↔ ∃ r, r ∈ l ∧ Recipe.id r = x.
Proof. unfold ids. rewrite list_elem_of_fmap. naive_solver. Qed.

(** ** Slot selection *)

Section PickFacts.
Variable recipes : list Recipe.t.
Variable random : nat -> nat.

(** A candidate the scan passes over leaves the locals as they were. *)
Ltac skip_candidate IH H :=
  apply IH in H as (added & ? & ? & ? & ? & ? & ? & ?);
  exists added; repeat split; try done; set_solver.

(** What one scan of the candidates adds to the locals of [pickRecipes]. *)
Lemma pick_scan (count : Z) (cands : list Recipe.t) :
  ∀ sel b ch sel' b' ch',
    fold_left (pick_step count) cands (sel, b, ch) = (sel', b', ch') →
    ∃ added,
      sel' = sel ++ added
      ∧ (∀ r, r ∈ added → r ∈ cands)
      ∧ NoDup (ids added)
      ∧ (∀ x, x ∈ ids added → x ∉ ch)
      ∧ ch' = list_to_set (ids added) ∪ ch
      ∧ (beef_count added + b2n b = b2n b')%nat
      ∧ (added ≠ [] → Z.of_nat (length sel') <= count).
Proof.
  induction cands as [|r cands IH]; intros sel b ch sel' b' ch' H; simpl in H.
  - injection H as <- <- <-. exists []. rewrite app_nil_r.
    repeat split; try done; try set_solver. constructor.
  - case_bool_decide as Hlen; [skip_candidate IH H|].
    case_bool_decide as Hch; [skip_candidate IH H|].
    destruct (is_beef r && b) eqn:Hbeef; [skip_candidate IH H|].
    apply IH in H as (added & -> & Hin & Hnd & Hfresh & -> & Hcount & Hlen').
    exists (r :: added). rewrite <- app_assoc. simpl.
    split; [done|]. split; [set_solver|].
    split; [constructor; [|done]; intros Hr; apply Hfresh in Hr; set_solver|].
    split; [intros x Hx; apply elem_of_cons in Hx as [->|Hx];
            [done|apply Hfresh in Hx; set_solver]|].
    split; [set_solver|].
    split.
    + rewrite beef_count_cons. rewrite <- Hcount.
      destruct (is_beef r), b; simpl in *; try done; lia.
    + intros _. destruct added as [|a added].
      * rewrite length_app. simpl. lia.
      * specialize (Hlen' ltac:(done)).
        rewrite !length_app in *. simpl in *. lia.
Qed.

Lemma elem_of_pick_filter (mealType : MealType) (recent : gset string)
    (r : Recipe.t) :
  r ∈ pick_filter recipes mealType recent
  ↔ r ∈ recipes ∧ Recipe.mealType r = mealType ∧ Recipe.id r ∉ recent.
Proof. unfold pick_filter. rewrite list_elem_of_filter. naive_solver. Qed.

(** A successful [pickRecipes]: what it selected and how it left the
    shared state. *)
Lemma pickRecipes_Ok (mealType : MealType) (count : Z) (recent : gset string)
    (b : bool) (st : State) sel b' st' :
  pickRecipes recipes random mealType count recent b st = Ok (sel, b', st') →
  (∀ r, r ∈ sel →
     r ∈ recipes ∧ Recipe.mealType r = mealType ∧ Recipe.id r ∉ recent)
  ∧ NoDup (ids sel)
  ∧ (∀ x, x ∈ ids sel → x ∉ chosen st)
  ∧ chosen st' = list_to_set (ids sel) ∪ chosen st
  ∧ (beef_count sel + b2n b = b2n b')%nat
  ∧ (0 <= count → Z.of_nat (length sel) = count).
Proof.
  unfold pickRecipes.
  destruct (shuffle random _ (calls st)) as [cands n] eqn:Hsh.
  destruct (fold_left _ cands _) as [[sel0 b0] ch0] eqn:Hfold.
  case_bool_decide as Hlt; [done|]. intros [= <- <- <-].
  apply pick_scan in Hfold as (added & -> & Hin & Hnd & Hfresh & -> & Hcount & Hlen).
  simpl in *. split; [|repeat split; try done].
  - intros r Hr. apply (elem_of_pick_filter mealType recent r).
    rewrite <- (shuffle_elem_of random _ (calls st)), Hsh. by apply Hin.
  - intros Hc. destruct added as [|a added]; [simpl in *; lia|].
    specialize (Hlen ltac:(done)). lia.
Qed.
End PickFacts.

(** ** Variety repair *)

Section EnsureFacts.
Variable recipes : list Recipe.t.
Variable random : nat -> nat.

Lemma replaces_true (toReplace : Recipe.t) (recent chosen : gset string)
    (beefUsed : bool) (recipe : Recipe.t) :
  replaces toReplace recent chosen beefUsed recipe = true ↔
    Recipe.mealType recipe = Recipe.mealType toReplace
    ∧ is_iberian recipe = true
    ∧ (Recipe.id recipe ∉ recent)
    ∧ (Recipe.id recipe ∉ chosen)
    ∧ (is_beef recipe = true → beefUsed = false).
Proof.
  unfold replaces.
  repeat case_bool_decide; destruct (is_iberian recipe), (is_beef recipe),
    beefUsed; simpl; naive_solver.
Qed.

Lemma substitute_other (toReplace candidate : Recipe.t) (l : list Recipe.t) :
  Recipe.id toReplace ∉ ids l → substitute toReplace candidate l = l.
Proof.
  induction l as [|r l IH]; [done|]. simpl. intros Hn.
  rewrite not_elem_of_cons in Hn. destruct Hn as [Hr Hl].
  rewrite bool_decide_eq_false_2 by congruence.
  f_equal. by apply IH.
Qed.

(** With pairwise distinct identifiers the substitution touches one
    position only. *)
Lemma substitute_NoDup (toReplace candidate : Recipe.t)
    (pre post : list Recipe.t) :
  NoDup (ids (pre ++ toReplace :: post)) →
  substitute toReplace candidate (pre ++ toReplace :: post)
  = pre ++ candidate :: post.
Proof.
  rewrite ids_app. simpl. intros Hnd.
  apply NoDup_app in Hnd as (_ & Hpre & Hpost).
  apply NoDup_cons in Hpost as [Hpost _].
  unfold substitute. rewrite map_app. simpl.
  rewrite bool_decide_eq_true_2 by done.
  f_equal; [|f_equal].
  - apply substitute_other. intros Hin. apply (Hpre _ Hin). by left.
  - by apply substitute_other.
Qed.

Lemma ensure_loop_Ok (rest plan : list Recipe.t) (recent : gset string)
    (b : bool) :
  ∀ st plan' b' st',
    ensure_loop recipes random rest plan recent b st = Ok (plan', b', st') →
    ∃ pre old post candidate,
      rest = pre ++ old :: post
      ∧ candidate ∈ recipes
      ∧ replaces old recent (chosen st) b candidate = true
      ∧ (∀ x, x ∈ pre → ¬ admits recipes recent (chosen st) b x)
      ∧ plan' = substitute old candidate plan
      ∧ b' = (if is_beef candidate then true else b)
      ∧ chosen st' = {[Recipe.id candidate]} ∪ (chosen st ∖ {[Recipe.id old]}).
Proof.
  induction rest as [|x rest IH]; intros st plan' b' st' H; simpl in H; [done|].
  destruct (shuffle random recipes (calls st)) as [shuffled n] eqn:Hsh.
  destruct (find _ shuffled) as [candidate|] eqn:Hfind.
  - injection H as <- <- <-.
    apply find_some in Hfind as [Hin Hrep].
    exists [], x, rest, candidate. simpl. repeat split; try done.
    + apply (shuffle_elem_of random recipes (calls st)).
      rewrite Hsh. simpl. by apply list_elem_of_In.
    + intros y Hy. by apply elem_of_nil in Hy.
  - apply IH in H as (pre & old & post & candidate & -> & ? & ? & Hpre & ? & ? & ?).
    simpl in *. exists (x :: pre), old, post, candidate.
    repeat split; try done.
    intros y Hy [c [Hc Hrep]]. apply elem_of_cons in Hy as [->|Hy].
    + apply (shuffle_elem_of random recipes (calls st)) in Hc.
      rewrite Hsh in Hc. simpl in Hc. apply list_elem_of_In in Hc.
      pose proof (find_none _ _ Hfind c Hc) as Hf. simpl in Hf. congruence.
    + apply (Hpre y Hy). by exists c.
Qed.

Lemma ensure_loop_Throw (rest plan : list Recipe.t) (recent : gset string)
    (b : bool) :
  ∀ st message,
    ensure_loop recipes random rest plan recent b st = Throw message →
    message = cuisine_error.
Proof.
  induction rest as [|x rest IH]; intros st message H; simpl in H.
  - congruence.
  - destruct (shuffle random recipes (calls st)) as [shuffled n].
    destruct (find _ shuffled); [done|]. by apply IH in H.
Qed.

Lemma existsb_is_iberian (plan : list Recipe.t) :
  existsb is_iberian plan = true ↔ ∃ r, r ∈ plan ∧ is_iberian r = true.
Proof.
  rewrite existsb_exists. split; intros [r [? ?]]; exists r; split; try done;
    by apply list_elem_of_In.
Qed.
End EnsureFacts.

(** The two ways [ensureSpanishOrMexican] returns, on a selection whose
    identifiers are pairwise distinct. *)
Lemma ensure_Ok_cases (recipes : list Recipe.t) (random : nat -> nat)
    (plan : list Recipe.t) (recent : gset string) (b : bool) (st : State)
    plan' b' st' :
  NoDup (ids plan) →
  ensureSpanishOrMexican recipes random plan recent b st = Ok (plan', b', st') →
  (existsb is_iberian plan = true ∧ plan' = plan ∧ b' = b ∧ st' = st)
  ∨ (existsb is_iberian plan = false
     ∧ ∃ pre old post candidate,
         plan = pre ++ old :: post
         ∧ plan' = pre ++ candidate :: post
         ∧ candidate ∈ recipes
         ∧ replaces old recent (chosen st) b candidate = true
         ∧ (∀ x, x ∈ pre → ¬ admits recipes recent (chosen st) b x)
         ∧ b' = (if is_beef candidate then true else b)
         ∧ chosen st' = {[Recipe.id candidate]} ∪ (chosen st ∖ {[Recipe.id old]})).
Proof.
  intros Hnd. unfold ensureSpanishOrMexican.
  destruct (existsb is_iberian plan) eqn:Hib.
  - intros [= <- <- <-]. by left.
  - intros H. right. split; [done|].
    apply ensure_loop_Ok in H
      as (pre & old & post & candidate & Hplan & ? & ? & ? & -> & ? & ?).
    exists pre, old, post, candidate. repeat split; try done.
    rewrite Hplan in Hnd |- *. by apply substitute_NoDup.
Qed.

(** ** The invariant of a generated plan *)

Section GenerateFacts.
Variable recipes : list Recipe.t.
Variable random : nat -> nat.
Variable now : Z.
Variable formatDay : option string -> nat -> option string.
Variable localeCompare : string -> string -> Z.

Lemma addMeals_recipes (dateLabels : list string) (mealType : MealType)
    (selections : list Recipe.t) :
  map PlannedMeal.recipe (addMeals dateLabels mealType selections) = selections.
Proof.
  unfold addMeals. apply list_eq. intros i.
  rewrite list_lookup_fmap, list_lookup_imap.
  by destruct (selections !! i).
Qed.

Lemma of_type_Permutation (plan : list Recipe.t) :
  of_type breakfast plan ++ of_type lunch plan ++ of_type dinner plan ≡ₚ plan.
Proof.
  unfold of_type. induction plan as [|r plan IH]; [done|].
  rewrite !filter_cons.
  destruct (Recipe.mealType r); repeat case_decide; try done; simpl.
  - by rewrite IH.
  - rewrite <- Permutation_middle. by rewrite IH.
  - rewrite app_assoc, <- Permutation_middle, <- app_assoc. by rewrite IH.
Qed.

(** What the three slot selections hand to the repair step. *)
Lemma picks_Ok (request : PlannerRequest.t) (recent : gset string)
    bs b1 st1 ls b2 st2 ds b3 st3 :
  pickRecipes recipes random breakfast (PlannerRequest.breakfasts request)
    recent false (mkState ∅ 0) = Ok (bs, b1, st1) →
  pickRecipes recipes random lunch (PlannerRequest.lunches request)
    recent b1 st1 = Ok (ls, b2, st2) →
  pickRecipes recipes random dinner (PlannerRequest.dinners request)
    recent b2 st2 = Ok (ds, b3, st3) →
  let all := bs ++ ls ++ ds in
  NoDup (ids all)
  ∧ chosen st3 = list_to_set (ids all)
  ∧ beef_count all = b2n b3
  ∧ (∀ r, r ∈ all → r ∈ recipes ∧ Recipe.id r ∉ recent)
  ∧ (0 <= PlannerRequest.breakfasts request →
     0 <= PlannerRequest.lunches request →
     0 <= PlannerRequest.dinners request →
     Z.of_nat (length all)
     = PlannerRequest.breakfasts request + PlannerRequest.lunches request
       + PlannerRequest.dinners request).
Proof.
  intros Hb Hl Hd all. subst all.
  apply pickRecipes_Ok in Hb as (Hb1 & Hb2 & Hb3 & Hb4 & Hb5 & Hb6).
  apply pickRecipes_Ok in Hl as (Hl1 & Hl2 & Hl3 & Hl4 & Hl5 & Hl6).
  apply pickRecipes_Ok in Hd as (Hd1 & Hd2 & Hd3 & Hd4 & Hd5 & Hd6).
  simpl in *. rewrite Hb4 in *. rewrite Hl4 in *. clear Hb4 Hl4.
  repeat split.
  - rewrite !ids_app. rewrite !NoDup_app. repeat split; try done.
    + intros x Hx Hx'. apply elem_of_app in Hx' as [Hx'|Hx'].
      * apply Hl3 in Hx'. set_solver.
      * apply Hd3 in Hx'. set_solver.
    + intros x Hx Hx'. apply Hd3 in Hx'. set_solver.
  - rewrite Hd4, !ids_app. set_solver.
  - rewrite !beef_count_app. simpl in Hb5. lia.
  - set_solver.
  - set_solver.
  - intros. rewrite !length_app. lia.
Qed.

(** The repair step keeps what the selections established and adds the
    required cuisine. *)
Lemma repair_Ok (all : list Recipe.t) (recent : gset string) (b : bool)
    (st : State) plan b' st' :
  NoDup (ids all) →
  chosen st = list_to_set (ids all) →
  beef_count all = b2n b →
  (∀ r, r ∈ all → r ∈ recipes ∧ Recipe.id r ∉ recent) →
  ensureSpanishOrMexican recipes random all recent b st = Ok (plan, b', st') →
  NoDup (ids plan)
  ∧ (beef_count plan ≤ 1)%nat
  ∧ (∀ r, r ∈ plan → r ∈ recipes ∧ Recipe.id r ∉ recent)
  ∧ (∃ r, r ∈ plan ∧ is_iberian r = true)
  ∧ length plan = length all.
Proof.
  intros Hnd Hch Hbeef Hall H.
  apply ensure_Ok_cases in H as [(Hib & -> & -> & ->)|(Hib & H)]; [| |done].
  - repeat split; try done; try (by apply Hall).
    + rewrite Hbeef. destruct b; simpl; lia.
    + by apply existsb_is_iberian.
  - destruct H as (pre & old & post & candidate & -> & -> & Hc & Hrep & _ & -> & _).
    apply replaces_true in Hrep as (_ & Hiber & Hrecent & Hfresh & Hcap).
    rewrite Hch in Hfresh. rewrite ids_app in Hnd, Hfresh. simpl in *.
    rewrite beef_count_app, beef_count_cons in Hbeef.
    repeat split.
    + rewrite ids_app. simpl.
      apply NoDup_app in Hnd as (Hpre & Hdisj & Hpost).
      apply NoDup_cons in Hpost as [Hold Hpost].
      apply NoDup_app. repeat split; [done| |].
      * intros x Hx Hx'. apply elem_of_cons in Hx' as [->|Hx'].
        -- set_solver.
        -- apply (Hdisj x Hx). by right.
      * apply NoDup_cons. split; [set_solver|done].
    + rewrite beef_count_app, beef_count_cons.
      destruct (is_beef candidate) eqn:Ec.
      * rewrite (Hcap eq_refl) in Hbeef. simpl in *. lia.
      * destruct b; simpl in *; lia.
    + apply elem_of_app in H as [H|H]; [apply Hall; set_solver|].
      apply elem_of_cons in H as [->|H]; [done|apply Hall; set_solver].
    + apply elem_of_app in H as [H|H]; [apply Hall; set_solver|].
      apply elem_of_cons in H as [->|H]; [done|apply Hall; set_solver].
    + exists candidate. split; [set_solver|done].
    + rewrite !length_app. done.
Qed.

(** Everything a successful [generateWeeklyPlan] guarantees about the
    plan behind its response. *)
Lemma generate_Ok (request : PlannerRequest.t) (history : gmap string Z)
    (response : PlannerResponse.t) :
  generateWeeklyPlan recipes random now formatDay localeCompare request history
    = Ok response →
  ∃ plan,
    planned response ≡ₚ plan
    ∧ PlannerResponse.shoppingList response = aggregateShopping localeCompare plan
    ∧ PlannerResponse.updatedHistory response = record_history now plan history
    ∧ NoDup (ids plan)
    ∧ (beef_count plan ≤ 1)%nat
    ∧ (∀ r, r ∈ plan → r ∈ recipes ∧ Recipe.id r ∉ dom history)
    ∧ (∃ r, r ∈ plan ∧ is_iberian r = true)
    ∧ (0 <= PlannerRequest.breakfasts request →
       0 <= PlannerRequest.lunches request →
       0 <= PlannerRequest.dinners request →
       Z.of_nat (length plan)
       = PlannerRequest.breakfasts request + PlannerRequest.lunches request
         + PlannerRequest.dinners request).
Proof.
  unfold generateWeeklyPlan, mbind, outcome_bind.
  destruct (pickRecipes _ _ breakfast _ _ _ _) as [[[bs b1] st1]|] eqn:Hb; [|done].
  destruct (pickRecipes _ _ lunch _ _ _ _) as [[[ls b2] st2]|] eqn:Hl; [|done].
  destruct (pickRecipes _ _ dinner _ _ _ _) as [[[ds b3] st3]|] eqn:Hd; [|done].
  destruct (ensureSpanishOrMexican _ _ _ _ _ _) as [[[plan b4] st4]|] eqn:He; [|done].
  destruct (buildDateLabels _ _ _) as [labels|]; [|done].
  intros [= <-]. exists plan.
  destruct (picks_Ok _ _ _ _ _ _ _ _ _ _ _ Hb Hl Hd)
    as (Hnd & Hch & Hbeef & Hall & Hlen).
  destruct (repair_Ok _ _ _ _ _ _ _ Hnd Hch Hbeef Hall He)
    as (Hnd' & Hbeef' & Hall' & Hib & Hlen').
  unfold planned. simpl.
  rewrite !map_app, !addMeals_recipes.
  repeat split; try done; try (by apply Hall').
  - apply of_type_Permutation.
  - intros. rewrite Hlen'. by apply Hlen.
Qed.
End GenerateFacts.

(** ** History bookkeeping *)

Section HistoryFacts.
Variable now : Z.

Lemma record_history_lookup (plan : list Recipe.t) :
  ∀ (history : gmap string Z) (k : string),
    record_history now plan history !! k
    = if bool_decide (k ∈ ids plan) then Some now else history !! k.
Proof.
  induction plan as [|r plan IH]; intros history k.
  - done.
  - unfold record_history in *. cbn [fold_left]. rewrite IH.
    unfold ids. cbn [map]. fold (ids plan).
    destruct (decide (k ∈ ids plan)) as [Hk|Hk].
    + rewrite !bool_decide_eq_true_2; [done|by right|done].
    + rewrite (bool_decide_eq_false_2 _ Hk).
      destruct (decide (k = Recipe.id r)) as [->|Hne].
      * rewrite lookup_insert_eq.
        rewrite bool_decide_eq_true_2; [done|]. by left.
      * rewrite lookup_insert_ne by done.
        rewrite bool_decide_eq_false_2; [done|].
        rewrite not_elem_of_cons. done.
Qed.

Lemma record_history_size (plan : list Recipe.t) :
  ∀ history : gmap string Z,
    NoDup (ids plan) →
    (∀ k, k ∈ ids plan → history !! k = None) →
    size (record_history now plan history) = (size history + length plan)%nat.
Proof.
  induction plan as [|r plan IH]; intros history Hnd Hfresh; simpl.
  - unfold record_history. simpl. lia.
  - unfold record_history in *. simpl in *.
    apply NoDup_cons in Hnd as [Hr Hnd].
    rewrite IH; [|done|].
    + rewrite map_size_insert_None; [lia|]. apply Hfresh. by left.
    + intros k Hk. rewrite lookup_insert_ne.
      * apply Hfresh. by right.
      * intros <-. done.
Qed.
End HistoryFacts.

Lemma beef_meals_count (meals : list PlannedMeal.t) :
  length (filter (fun meal => Recipe.protein (PlannedMeal.recipe meal) = "beef") meals)
  = beef_count (map PlannedMeal.recipe meals).
Proof.
  unfold beef_count. induction meals as [|m meals IH]; [done|].
  cbn [map]. rewrite !filter_cons.
  destruct (decide (Recipe.protein (PlannedMeal.recipe m) = "beef")) as [E|E].
  - rewrite decide_True; [|by apply bool_decide_eq_true_2].
    simpl. by rewrite IH.
  - rewrite decide_False; [done|].
    unfold is_beef. by rewrite bool_decide_eq_false_2.
Qed.

(** ** Failing slot selections *)

Section PickFailures.
Variable recipes : list Recipe.t.
Variable random : nat -> nat.

(** The only error [pickRecipes] raises is the one naming its meal type. *)
Lemma pickRecipes_Throw (mealType : MealType) (count : Z)
    (recent : gset string) (b : bool) (st : State) (message : string) :
  pickRecipes recipes random mealType count recent b st = Throw message →
  message = pick_error mealType.
Proof.
  unfold pickRecipes.
  destruct (shuffle random _ (calls st)) as [cands n].
  destruct (fold_left _ cands _) as [[sel0 b0] ch0].
  case_bool_decide; [|done]. by intros [= <-].
Qed.

(** With a count of zero (or less) the scan accepts nothing. *)
Lemma pick_scan_nothing (count : Z) (cands : list Recipe.t) (b : bool)
    (ch : gset string) :
  count <= 0 →
  fold_left (pick_step count) cands ([], b, ch) = ([], b, ch).
Proof.
  intros Hc. induction cands as [|r cands IH]; [done|]. simpl.
  rewrite bool_decide_eq_true_2 by lia. done.
Qed.

Lemma pickRecipes_zero (mealType : MealType) (recent : gset string)
    (b : bool) (st : State) :
  ∃ n, pickRecipes recipes random mealType 0 recent b st
       = Ok ([], b, mkState (chosen st) n).
Proof.
  unfold pickRecipes.
  destruct (shuffle random _ (calls st)) as [cands n].
  rewrite pick_scan_nothing by done. simpl.
  exists n. done.
Qed.
End PickFailures.

(** ** Shopping aggregation: the keys of the list *)

Lemma map_get_Some (key : string) (m : list (string * ShoppingLineItem.t))
    (v : ShoppingLineItem.t) :
  map_get key m = Some v → (key, v) ∈ m.
Proof.
  induction m as [|[k w] m IH]; simpl; [done|].
  case_bool_decide as Hk.
  - intros [= ->]. subst. by left.
  - intros H. right. by apply IH.
Qed.

Lemma map_get_None (key : string) (m : list (string * ShoppingLineItem.t)) :
  map_get key m = None → key ∉ map fst m.
Proof.
  induction m as [|[k w] m IH]; simpl; [intros _; apply not_elem_of_nil|].
  case_bool_decide as Hk; [done|].
  intros H. apply not_elem_of_cons. split; [congruence|by apply IH].
Qed.

Lemma map_set_keys_old (key : string) (v : ShoppingLineItem.t)
    (m : list (string * ShoppingLineItem.t)) :
  key ∈ map fst m → map fst (map_set key v m) = map fst m.
Proof.
  induction m as [|[k w] m IH]; simpl; [by intros ?%elem_of_nil|].
  case_bool_decide as Hk; [done|].
  intros [?|Hin]%elem_of_cons; [congruence|]. simpl. f_equal. by apply IH.
Qed.

Lemma map_set_keys_new (key : string) (v : ShoppingLineItem.t)
    (m : list (string * ShoppingLineItem.t)) :
  key ∉ map fst m → map fst (map_set key v m) = map fst m ++ [key].
Proof.
  induction m as [|[k w] m IH]; simpl; [done|].
  intros [Hk Hin]%not_elem_of_cons.
  rewrite bool_decide_eq_false_2 by congruence. simpl. f_equal. by apply IH.
Qed.

Lemma map_set_Forall (P : string * ShoppingLineItem.t → Prop) (key : string)
    (v : ShoppingLineItem.t) (m : list (string * ShoppingLineItem.t)) :
  P (key, v) → Forall P m → Forall P (map_set key v m).
Proof.
  intros Hv. induction 1 as [|[k w] m Hw Hm IH]; simpl.
  - by constructor.
  - case_bool_decide as Hk; subst; by constructor.
Qed.

Lemma map_set_keyed (key : string) (v : ShoppingLineItem.t)
    (m : list (string * ShoppingLineItem.t)) :
  item_key v = key → keyed m →
  keyed (map_set key v m)
  ∧ list_to_set (map fst (map_set key v m))
    =@{gset string} {[key]} ∪ list_to_set (map fst m).
Proof.
  intros Hv [Hnd Hall]. unfold keyed.
  destruct (decide (key ∈ map fst m)) as [Hin|Hin].
  - rewrite map_set_keys_old by done.
    repeat split; [done|by apply map_set_Forall|set_solver].
  - rewrite map_set_keys_new by done.
    repeat split; [|by apply map_set_Forall|].
    + apply NoDup_app. repeat split; [done| |apply NoDup_singleton].
      intros x Hx ->%list_elem_of_singleton. done.
    + rewrite list_to_set_app_L. set_solver.
Qed.

(** Every branch of the merge stores a line under the ingredient's key, and
    the line keeps that key. *)
Lemma add_ingredient_keyed (m : list (string * ShoppingLineItem.t))
    (ingredient : Ingredient.t) :
  keyed m →
  keyed (add_ingredient m ingredient)
  ∧ list_to_set (map fst (add_ingredient m ingredient))
    =@{gset string} {[ingredient_key ingredient]} ∪ list_to_set (map fst m).
Proof.
  intros Hm. unfold add_ingredient. fold (ingredient_key ingredient).
  destruct (map_get _ m) as [existing|] eqn:Hget.
  - assert (item_key existing = ingredient_key ingredient) as Hkey.
    { apply map_get_Some in Hget. destruct Hm as [_ Hall].
      rewrite Forall_forall in Hall. apply (Hall _ Hget). }
    destruct (truthy _ && truthy _); by apply map_set_keyed.
  - by apply map_set_keyed.
Qed.

Lemma add_ingredients_keyed (ingredients : list Ingredient.t) :
  ∀ m, keyed m →
    keyed (fold_left add_ingredient ingredients m)
    ∧ list_to_set (map fst (fold_left add_ingredient ingredients m))
      =@{gset string}
        list_to_set (map ingredient_key ingredients) ∪ list_to_set (map fst m).
Proof.
  induction ingredients as [|i ingredients IH]; intros m Hm; simpl.
  - split; [done|set_solver].
  - destruct (add_ingredient_keyed m i Hm) as [Hm' Hset].
    destruct (IH _ Hm') as [Hk ->]. split; [done|]. rewrite Hset. set_solver.
Qed.

Lemma add_recipes_flat (meals : list Recipe.t) :
  ∀ m, fold_left add_recipe meals m
       = fold_left add_ingredient (all_ingredients meals) m.
Proof.
  unfold all_ingredients.
  induction meals as [|r meals IH]; intros m; simpl; [done|].
  rewrite fold_left_app. by rewrite IH.
Qed.

Section SortFacts.
Variable localeCompare : string -> string -> Z.

Lemma sort_insert_Permutation (a : ShoppingLineItem.t)
    (l : list ShoppingLineItem.t) :
  sort_insert localeCompare a l ≡ₚ a :: l.
Proof.
  induction l as [|b l IH]; simpl; [done|].
  case_bool_decide; [done|]. rewrite IH. apply Permutation_swap.
Qed.

Lemma sort_items_Permutation (l : list ShoppingLineItem.t) :
  sort_items localeCompare l ≡ₚ l.
Proof.
  induction l as [|a l IH]; simpl; [done|].
  rewrite sort_insert_Permutation. by rewrite IH.
Qed.

(** The keys of the shopping list are those of the aggregation map. *)
Lemma aggregateShopping_keys (meals : list Recipe.t) :
  NoDup (map item_key (aggregateShopping localeCompare meals))
  ∧ ∀ k, k ∈ map item_key (aggregateShopping localeCompare meals)
         ↔ k ∈ map ingredient_key (all_ingredients meals).
Proof.
  unfold aggregateShopping. rewrite add_recipes_flat.
  assert (keyed []) as H0 by (split; [constructor|constructor]).
  destruct (add_ingredients_keyed (all_ingredients meals) [] H0)
    as [[Hnd Hall] Hset].
  set (m := fold_left add_ingredient (all_ingredients meals) []) in *.
  assert (map item_key (map snd m) = map fst m) as Hkeys.
  { clear -Hall. induction Hall as [|[k v] m Hk _ IH]; simpl in *; [done|].
    by rewrite Hk, IH. }
  split.
  - rewrite sort_items_Permutation, Hkeys. done.
  - intros k. rewrite sort_items_Permutation, Hkeys.
    rewrite <- (elem_of_list_to_set (C := gset string) k (map fst m)), Hset.
    set_solver.
Qed.
End SortFacts.

(** * The properties of the specification *)

Section PlanProperties.
Variable recipes : list Recipe.t.
Variable random : nat -> nat.
Variable now : Z.
Variable formatDay : option string -> nat -> option string.
Variable localeCompare : string -> string -> Z.

Local Abbreviation generate :=
  (generateWeeklyPlan recipes random now formatDay localeCompare).

(** C1 (protein cap). Whatever the catalog, the request, the history and
    the draws of the shuffles, a plan that [generateWeeklyPlan] returns has
    at most one meal whose recipe has the protein tag "beef". *)
Theorem beef_at_most_once (request : PlannerRequest.t)
    (history : gmap string Z) (response : PlannerResponse.t) :
  generate request history = Ok response →
  (length (filter (fun meal => Recipe.protein (PlannedMeal.recipe meal) = "beef")
             (PlannerResponse.meals response)) ≤ 1)%nat.
Proof.
  intros H. apply generate_Ok in H as (plan & Hperm & _ & _ & _ & Hbeef & _).
  rewrite beef_meals_count. fold (planned response).
  by rewrite (beef_count_Permutation _ _ Hperm).
Qed.

(** C2 (size and distinctness). For non-negative counts, a returned plan
    has [breakfasts + lunches + dinners] meals, and no two meals have the
    same recipe identifier. *)
Theorem meals_length_and_distinct (request : PlannerRequest.t)
    (history : gmap string Z) (response : PlannerResponse.t) :
  0 <= PlannerRequest.breakfasts request →
  0 <= PlannerRequest.lunches request →
  0 <= PlannerRequest.dinners request →
  generate request history = Ok response →
  Z.of_nat (length (PlannerResponse.meals response))
  = PlannerRequest.breakfasts request + PlannerRequest.lunches request
    + PlannerRequest.dinners request
  ∧ NoDup (map (fun meal => Recipe.id (PlannedMeal.recipe meal))
             (PlannerResponse.meals response)).
Proof.
  intros Hb Hl Hd H.
  apply generate_Ok in H as (plan & Hperm & _ & _ & Hnd & _ & _ & _ & Hlen).
  split.
  - rewrite <- (Hlen Hb Hl Hd), <- Hperm. unfold planned.
    by rewrite length_map.
  - rewrite <- (map_map PlannedMeal.recipe Recipe.id).
    fold (planned response). fold (ids (planned response)).
    unfold ids. by rewrite Hperm.
Qed.

(** C3 (required cuisine). When the catalog holds a Spanish or Mexican
    recipe of a meal type that occurs in the plan, a returned plan has a
    meal whose recipe has the cuisine tag "spanish" or "mexican". *)
Theorem plan_has_required_cuisine (request : PlannerRequest.t)
    (history : gmap string Z) (response : PlannerResponse.t) :
  generate request history = Ok response →
  (∃ r meal, r ∈ recipes
             ∧ (Recipe.cuisine r = "spanish" ∨ Recipe.cuisine r = "mexican")
             ∧ meal ∈ PlannerResponse.meals response
             ∧ PlannedMeal.mealType meal = Recipe.mealType r) →
  ∃ meal, meal ∈ PlannerResponse.meals response
          ∧ (Recipe.cuisine (PlannedMeal.recipe meal) = "spanish"
             ∨ Recipe.cuisine (PlannedMeal.recipe meal) = "mexican").
Proof.
  intros H _.
  apply generate_Ok in H as (plan & Hperm & _ & _ & _ & _ & _ & Hib & _).
  destruct Hib as (r & Hr & Hib).
  rewrite <- Hperm in Hr. unfold planned in Hr.
  apply list_elem_of_fmap in Hr as (meal & -> & Hmeal).
  exists meal. split; [done|].
  unfold is_iberian in Hib. apply bool_decide_eq_true in Hib.
  set_solver.
Qed.

(** C4 (no repeats). No recipe of a returned plan has an identifier that
    is a key of the input history. *)
Theorem plan_avoids_history (request : PlannerRequest.t)
    (history : gmap string Z) (response : PlannerResponse.t) :
  generate request history = Ok response →
  ∀ meal, meal ∈ PlannerResponse.meals response →
          history !! Recipe.id (PlannedMeal.recipe meal) = None.
Proof.
  intros H meal Hmeal.
  apply generate_Ok in H as (plan & Hperm & _ & _ & _ & _ & Hall & _).
  apply not_elem_of_dom. apply Hall. rewrite <- Hperm.
  unfold planned. apply list_elem_of_fmap. by exists meal.
Qed.

(** C5 (updated history). The returned history keeps every entry of the
    input history as it was and adds one entry for each recipe of the plan,
    all of them with the one timestamp of the run; nothing else is added. *)
Theorem updated_history_extends (request : PlannerRequest.t)
    (history : gmap string Z) (response : PlannerResponse.t) :
  generate request history = Ok response →
  let updated := PlannerResponse.updatedHistory response in
  (∀ k v, history !! k = Some v → updated !! k = Some v)
  ∧ (∀ k, k ∈ ids (planned response) →
          history !! k = None ∧ updated !! k = Some now)
  ∧ dom updated = dom history ∪ list_to_set (ids (planned response))
  ∧ NoDup (ids (planned response))
  ∧ size updated
    = (size history + length (PlannerResponse.meals response))%nat.
Proof.
  intros H updated. subst updated.
  apply generate_Ok in H as (plan & Hperm & _ & -> & Hnd & _ & Hall & _).
  assert (∀ k, k ∈ ids plan → history !! k = None) as Hfresh.
  { intros k (r & Hr & <-)%elem_of_ids. apply not_elem_of_dom. by apply Hall. }
  assert (ids (planned response) ≡ₚ ids plan) as Hids
    by (unfold ids; by rewrite Hperm).
  repeat split.
  - intros k v Hk. rewrite record_history_lookup.
    case_bool_decide as Hin; [|done]. apply Hfresh in Hin. congruence.
  - apply Hfresh. by rewrite <- Hids.
  - rewrite record_history_lookup.
    rewrite bool_decide_eq_true_2; [done|]. by rewrite <- Hids.
  - apply set_eq. intros k. rewrite elem_of_dom, record_history_lookup.
    rewrite elem_of_union, elem_of_dom, elem_of_list_to_set, Hids.
    case_bool_decide; naive_solver.
  - by rewrite Hids.
  - rewrite record_history_size by done.
    f_equal. rewrite <- Hperm. unfold planned. by rewrite length_map.
Qed.
End PlanProperties.

(** The statements above, on the sample runs. *)

Lemma beef_at_most_once_witness :
  Sample.run_zeros = Ok Sample.response_zeros
  ∧ (length (filter (fun meal => Recipe.protein (PlannedMeal.recipe meal) = "beef")
               (PlannerResponse.meals Sample.response_zeros)) ≤ 1)%nat.
Proof.
  split; [by vm_compute|].
  apply (beef_at_most_once Sample.catalog Sample.zeros Sample.now
           Sample.formatDay Sample.localeCompare Sample.request ∅).
  by vm_compute.
Defined.

Lemma meals_length_and_distinct_witness :
  Sample.run = Ok Sample.response
  ∧ Z.of_nat (length (PlannerResponse.meals Sample.response)) = 1 + 1 + 2
  ∧ NoDup (map (fun meal => Recipe.id (PlannedMeal.recipe meal))
             (PlannerResponse.meals Sample.response)).
Proof.
  split; [by vm_compute|].
  apply (meals_length_and_distinct Sample.catalog Sample.draws Sample.now
           Sample.formatDay Sample.localeCompare Sample.request Sample.history);
    [simpl; lia|simpl; lia|simpl; lia|by vm_compute].
Defined.

Lemma plan_has_required_cuisine_witness :
  Sample.run = Ok Sample.response
  ∧ ∃ meal, meal ∈ PlannerResponse.meals Sample.response
            ∧ (Recipe.cuisine (PlannedMeal.recipe meal) = "spanish"
               ∨ Recipe.cuisine (PlannedMeal.recipe meal) = "mexican").
Proof.
  split; [by vm_compute|].
  apply (plan_has_required_cuisine Sample.catalog Sample.draws Sample.now
           Sample.formatDay Sample.localeCompare Sample.request Sample.history);
    [by vm_compute|].
  exists Sample.gazpacho, (PlannedMeal.mk 0 lunch Sample.gazpacho "Mon").
  split; [unfold Sample.catalog; set_solver|].
  split; [by left|].
  split; [vm_compute; set_solver|reflexivity].
Defined.

Lemma plan_avoids_history_witness :
  Sample.run = Ok Sample.response
  ∧ ∀ meal, meal ∈ PlannerResponse.meals Sample.response →
            Sample.history !! Recipe.id (PlannedMeal.recipe meal) = None.
Proof.
  split; [by vm_compute|].
  apply (plan_avoids_history Sample.catalog Sample.draws Sample.now
           Sample.formatDay Sample.localeCompare Sample.request Sample.history).
  by vm_compute.
Defined.

Lemma updated_history_extends_witness :
  Sample.run = Ok Sample.response
  ∧ PlannerResponse.updatedHistory Sample.response !! "tortilla"
    = Some 1766000000000
  ∧ size (PlannerResponse.updatedHistory Sample.response) = 5%nat.
Proof.
  split; [by vm_compute|].
  destruct (updated_history_extends Sample.catalog Sample.draws Sample.now
              Sample.formatDay Sample.localeCompare Sample.request
              Sample.history Sample.response) as (Hkeep & _ & _ & _ & Hsize);
    [by vm_compute|].
  split; [by apply Hkeep|]. rewrite Hsize. by vm_compute.
Defined.

(** ** Failures *)

Lemma pickRecipes_short (recipes : list Recipe.t) (random : nat -> nat)
    (mealType : MealType) (count : Z) (recent : gset string) (b : bool)
    (st : State) :
  Z.of_nat (length (accepted recipes random mealType count recent b st)) < count →
  pickRecipes recipes random mealType count recent b st
  = Throw (pick_error mealType).
Proof.
  unfold accepted, pickRecipes.
  destruct (shuffle random _ (calls st)) as [cands n]. simpl.
  destruct (fold_left _ cands _) as [[sel0 b0] ch0]. simpl.
  intros H. by rewrite bool_decide_eq_true_2.
Qed.

(** A meal type that cannot be filled without repeating history, taking a
    chosen recipe twice or exceeding the beef cap makes [pickRecipes] fail. *)
Lemma pickRecipes_unfillable (recipes : list Recipe.t) (random : nat -> nat)
    (mealType : MealType) (count : Z) (recent : gset string) (b : bool)
    (st : State) :
  0 <= count →
  (¬ ∃ sel, Z.of_nat (length sel) = count
            ∧ (∀ r, r ∈ sel → r ∈ recipes ∧ Recipe.mealType r = mealType
                              ∧ Recipe.id r ∉ recent)
            ∧ NoDup (ids sel)
            ∧ (∀ x, x ∈ ids sel → x ∉ chosen st)
            ∧ (beef_count sel + b2n b ≤ 1)%nat) →
  pickRecipes recipes random mealType count recent b st
  = Throw (pick_error mealType).
Proof.
  intros Hcount Hnone.
  destruct (pickRecipes _ _ _ _ _ _ _) as [[[sel b'] st']|message] eqn:H.
  - exfalso. apply Hnone. exists sel.
    apply pickRecipes_Ok in H as (Hall & Hnd & Hfresh & _ & Hcap & Hlen).
    repeat split; try done; try (by apply Hall); [by apply Hlen|].
    rewrite Hcap. destruct b'; simpl; lia.
  - apply pickRecipes_Throw in H. by subst.
Qed.

(** When every dinner of the catalog is beef, two dinners cannot be picked. *)
Lemma pickRecipes_all_beef (recipes : list Recipe.t) (random : nat -> nat)
    (mealType : MealType) (count : Z) (recent : gset string) (b : bool)
    (st : State) :
  (∀ r, r ∈ recipes → Recipe.mealType r = mealType → is_beef r = true) →
  2 <= count →
  pickRecipes recipes random mealType count recent b st
  = Throw (pick_error mealType).
Proof.
  intros Hbeef Hcount.
  destruct (pickRecipes _ _ _ _ _ _ _) as [[[sel b'] st']|message] eqn:H.
  - exfalso.
    apply pickRecipes_Ok in H as (Hall & _ & _ & _ & Hcap & Hlen).
    assert (beef_count sel = length sel) as Hn.
    { clear -Hall Hbeef. induction sel as [|r sel IH]; [done|].
      rewrite beef_count_cons. simpl.
      destruct (Hall r ltac:(by left)) as (Hr & Hm & _).
      rewrite (Hbeef r Hr Hm). simpl. f_equal. apply IH.
      intros x Hx. apply Hall. by right. }
    specialize (Hlen ltac:(lia)). destruct b'; simpl in *; lia.
  - apply pickRecipes_Throw in H. by subst.
Qed.

(** C9 (insufficient candidates). When the scan of every filtered candidate
    has accepted fewer than [count] recipes, [pickRecipes] fails with the
    error that names its meal type. In particular, with an empty history and
    a catalog whose dinners are two beef recipes, selecting two dinners
    fails with that error whatever the draws, and so does every request for
    two dinners. *)
Theorem insufficient_candidates :
  (∀ recipes random mealType count recent b st,
     Z.of_nat (length (accepted recipes random mealType count recent b st)) < count →
     pickRecipes recipes random mealType count recent b st
     = Throw ("Not enough " +:+ mealTypeName mealType
              +:+ " recipes available without repeats or beef overage."))
  ∧ (∀ recipes random now formatDay localeCompare request d1 d2,
       of_type dinner recipes = [d1; d2] →
       Recipe.protein d1 = "beef" →
       Recipe.protein d2 = "beef" →
       PlannerRequest.dinners request = 2 →
       (∀ b st, pickRecipes recipes random dinner 2 ∅ b st
                = Throw "Not enough dinner recipes available without repeats or beef overage.")
       ∧ (∃ mealType,
            generateWeeklyPlan recipes random now formatDay localeCompare
              request ∅
            = Throw (pick_error mealType))
       ∧ (PlannerRequest.breakfasts request <= 0 →
          PlannerRequest.lunches request <= 0 →
          generateWeeklyPlan recipes random now formatDay localeCompare
            request ∅
          = Throw "Not enough dinner recipes available without repeats or beef overage.")).
Proof.
  split; [intros; by apply pickRecipes_short|].
  intros recipes random now formatDay localeCompare request d1 d2
    Hdinners Hd1 Hd2 Hreq.
  assert (∀ r, r ∈ recipes → Recipe.mealType r = dinner → is_beef r = true)
    as Hbeef.
  { intros r Hr Hm.
    assert (r ∈ of_type dinner recipes) as Hin
      by (unfold of_type; by apply list_elem_of_filter).
    rewrite Hdinners in Hin. unfold is_beef. apply bool_decide_eq_true.
    set_solver. }
  assert (∀ recent b st, pickRecipes recipes random dinner 2 recent b st
                         = Throw (pick_error dinner)) as Hfail
    by (intros; by apply pickRecipes_all_beef).
  split; [intros; apply Hfail|].
  unfold generateWeeklyPlan, mbind, outcome_bind. rewrite Hreq.
  split.
  - destruct (pickRecipes _ _ breakfast _ _ _ _) as [[[bs b1] st1]|m1] eqn:Hb.
    + destruct (pickRecipes _ _ lunch _ _ _ _) as [[[ls b2] st2]|m2] eqn:Hl.
      * rewrite Hfail. by exists dinner.
      * apply pickRecipes_Throw in Hl as ->. by exists lunch.
    + apply pickRecipes_Throw in Hb as ->. by exists breakfast.
  - intros Hb0 Hl0.
    unfold pickRecipes at 1.
    destruct (shuffle random (pick_filter recipes breakfast _) _) as [c1 n1].
    rewrite pick_scan_nothing by done.
    rewrite bool_decide_eq_false_2 by (simpl; lia).
    unfold pickRecipes at 1. simpl.
    destruct (shuffle random (pick_filter recipes lunch _) _) as [c2 n2].
    rewrite pick_scan_nothing by done.
    rewrite bool_decide_eq_false_2 by (simpl; lia).
    by rewrite Hfail.
Qed.

(** C10 (empty request). With all three counts zero, [generateWeeklyPlan]
    returns no plan: the three selections are empty, the empty selection has
    no Spanish or Mexican recipe and no entry to replace, and the repair
    step throws. *)
Theorem empty_request_fails (recipes : list Recipe.t) (random : nat -> nat)
    (now : Z) (formatDay : option string -> nat -> option string)
    (localeCompare : string -> string -> Z) (weekOf : option string)
    (history : gmap string Z) :
  generateWeeklyPlan recipes random now formatDay localeCompare
    (PlannerRequest.mk 0 0 0 weekOf) history
  = Throw "No Spanish or Mexican recipes available that satisfy the rules.".
Proof.
  unfold generateWeeklyPlan, mbind, outcome_bind. simpl.
  destruct (pickRecipes_zero recipes random breakfast (dom history) false
              (mkState ∅ 0)) as [n1 ->]. simpl.
  destruct (pickRecipes_zero recipes random lunch (dom history) false
              (mkState ∅ n1)) as [n2 ->]. simpl.
  destruct (pickRecipes_zero recipes random dinner (dom history) false
              (mkState ∅ n2)) as [n3 ->]. simpl.
  done.
Qed.

Lemma insufficient_candidates_witness :
  of_type dinner [Sample.kofta; Sample.tortilla; Sample.carne_asada]
  = [Sample.kofta; Sample.carne_asada]
  ∧ generateWeeklyPlan [Sample.kofta; Sample.tortilla; Sample.carne_asada]
      Sample.draws Sample.now Sample.formatDay Sample.localeCompare
      (PlannerRequest.mk 0 0 2 None) ∅
    = Throw "Not enough dinner recipes available without repeats or beef overage.".
Proof.
  split; [reflexivity|].
  destruct (proj2 insufficient_candidates
              [Sample.kofta; Sample.tortilla; Sample.carne_asada]
              Sample.draws Sample.now Sample.formatDay Sample.localeCompare
              (PlannerRequest.mk 0 0 2 None) Sample.kofta Sample.carne_asada)
    as (_ & _ & H); [reflexivity|reflexivity|reflexivity|reflexivity|].
  apply H; simpl; lia.
Defined.

(** ** The variety repairer, on its own *)




(** ** The shopping aggregator *)

(** C6, as amended (reordering). Aggregating the same recipes in another
    order gives a list with the same case-insensitive item keys, one line
    for each key. *)
Theorem aggregateShopping_keys_order_invariant
    (localeCompare : string -> string -> Z) (meals1 meals2 : list Recipe.t) :
  meals1 ≡ₚ meals2 →
  map item_key (aggregateShopping localeCompare meals1)
  ≡ₚ map item_key (aggregateShopping localeCompare meals2)
  ∧ NoDup (map item_key (aggregateShopping localeCompare meals1)).
Proof.
  intros Hperm.
  destruct (aggregateShopping_keys localeCompare meals1) as [Hnd1 Hin1].
  destruct (aggregateShopping_keys localeCompare meals2) as [Hnd2 Hin2].
  split; [|done]. apply NoDup_Permutation; [done|done|].
  intros k. rewrite Hin1, Hin2. unfold all_ingredients. by rewrite Hperm.
Qed.

Lemma aggregateShopping_keys_order_invariant_witness :
  [Pantry.paella; Pantry.risotto] ≡ₚ [Pantry.risotto; Pantry.paella]
  ∧ map item_key (aggregateShopping Sample.localeCompare
                    [Pantry.paella; Pantry.risotto])
    ≡ₚ map item_key (aggregateShopping Sample.localeCompare
                       [Pantry.risotto; Pantry.paella]).
Proof.
  split; [apply Permutation_swap|].
  apply (aggregateShopping_keys_order_invariant Sample.localeCompare
           [Pantry.paella; Pantry.risotto] [Pantry.risotto; Pantry.paella]).
  apply Permutation_swap.
Defined.

(** C6 as stated fails: the unit of a merged line is that of the entry
    merged first, so two orders of the same two recipes give different
    lists. *)
Lemma aggregateShopping_depends_on_order :
  [Pantry.paella; Pantry.risotto] ≡ₚ [Pantry.risotto; Pantry.paella]
  ∧ aggregateShopping Sample.localeCompare [Pantry.paella; Pantry.risotto]
    = [ShoppingLineItem.mk "rice" (Some 201%Q) (Some "cup")]
  ∧ aggregateShopping Sample.localeCompare [Pantry.risotto; Pantry.paella]
    = [ShoppingLineItem.mk "rice" (Some 201%Q) (Some "g")]
  ∧ aggregateShopping Sample.localeCompare [Pantry.paella; Pantry.risotto]
    ≠ aggregateShopping Sample.localeCompare [Pantry.risotto; Pantry.paella].
Proof.
  split; [apply Permutation_swap|].
  split; [by vm_compute|]. split; [by vm_compute|].
  vm_compute. intros H. discriminate H.
Qed.


Lemma add_ingredient_merge (m : list (string * ShoppingLineItem.t))
    (existing : ShoppingLineItem.t) (ingredient : Ingredient.t) :
  map_get (ingredient_key ingredient) m = Some existing →
  map_get (ingredient_key ingredient) (add_ingredient m ingredient)
  = Some (merged existing ingredient).
Proof.
  intros Hget. unfold add_ingredient, merged. fold (ingredient_key ingredient).
  rewrite Hget.
  assert (∀ v, map_get (ingredient_key ingredient)
                 (map_set (ingredient_key ingredient) v m) = Some v) as Hset.
  { intros v. clear Hget. induction m as [|[k w] m IH]; simpl.
    - by rewrite bool_decide_eq_true_2.
    - case_bool_decide as Hk; simpl.
      + by rewrite bool_decide_eq_true_2.
      + by rewrite bool_decide_eq_false_2. }
  destruct (truthy _ && truthy _); apply Hset.
Qed.

(** The parts of the merge rule that the code follows. *)
Lemma merged_both (existing : ShoppingLineItem.t) (ingredient : Ingredient.t)
    (q1 q2 : Q) :
  ShoppingLineItem.quantity existing = Some q1 →
  Ingredient.quantity ingredient = Some q2 →
  ¬ (q1 == 0)%Q → ¬ (q2 == 0)%Q →
  ShoppingLineItem.quantity (merged existing ingredient)
  = Some (round2 (q1 + q2)).
Proof.
  intros H1 H2 Hq1 Hq2. unfold merged. rewrite H1, H2. simpl.
  destruct (Qeq_bool q1 0) eqn:E1; [by apply Qeq_bool_eq in E1|].
  destruct (Qeq_bool q2 0) eqn:E2; [by apply Qeq_bool_eq in E2|].
  done.
Qed.

Lemma merged_first_absent (existing : ShoppingLineItem.t)
    (ingredient : Ingredient.t) :
  ShoppingLineItem.quantity existing = None →
  ShoppingLineItem.quantity (merged existing ingredient)
  = Ingredient.quantity ingredient
  ∧ ShoppingLineItem.unit (merged existing ingredient)
    = nullish (ShoppingLineItem.unit existing) (Ingredient.unit ingredient).
Proof. intros H. unfold merged. rewrite H. done. Qed.

Lemma merged_second_falsy (existing : ShoppingLineItem.t)
    (ingredient : Ingredient.t) :
  truthy (Ingredient.quantity ingredient) = false →
  ShoppingLineItem.quantity (merged existing ingredient)
  = nullish (ShoppingLineItem.quantity existing) (Ingredient.quantity ingredient)
  ∧ ShoppingLineItem.unit (merged existing ingredient)
    = nullish (ShoppingLineItem.unit existing) (Ingredient.unit ingredient).
Proof. intros H. unfold merged. rewrite H, andb_false_r. done. Qed.

(** The part it does not follow: a stored quantity of zero is kept, and the
    quantity of the entry merged into it is dropped. *)
Lemma merged_zero_first (existing : ShoppingLineItem.t)
    (ingredient : Ingredient.t) (q1 : Q) :
  ShoppingLineItem.quantity existing = Some q1 →
  (q1 == 0)%Q →
  ShoppingLineItem.quantity (merged existing ingredient) = Some q1.
Proof.
  intros H1 Hq1. unfold merged. rewrite H1. simpl.
  by rewrite (Qeq_eq_bool _ _ Hq1).
Qed.

(** C7 (merge rule), where the code departs from it: the earlier entry has
    the quantity 0 and the later one the quantity 5, and the merged line
    keeps 0 instead of 5. *)
Theorem merge_keeps_zero_over_quantity :
  aggregateShopping Sample.localeCompare [Pantry.brine]
  = [ShoppingLineItem.mk "salt" (Some 0%Q) (Some "tsp")].
Proof. by vm_compute. Qed.

(** * Further properties of the code *)

(** ** [shuffle] *)

Lemma shuffle_loop_calls {T : Type} (random : nat -> nat) (i : nat) :
  ∀ (copy : list T) (n : nat),
    (shuffle_loop random i copy n).2 = (n + i)%nat
    ∧ length (shuffle_loop random i copy n).1 = length copy.
Proof.
  induction i as [|i IH]; intros copy n; [simpl; split; [lia|done]|].
  change (shuffle_loop random (S i) copy n)
    with (shuffle_loop random i (swap (S i) (random n mod (S i + 1)) copy) (S n)).
  destruct (IH (swap (S i) (random n mod (S i + 1)) copy) (S n)) as [-> ->].
  split; [lia|]. by rewrite (swap_Permutation _ _ copy).
Qed.

(** X1. Whatever the draws, [shuffle] returns a rearrangement of its
    argument, of the same length, and asks [Math.random] once for each
    element but the first. *)
Theorem shuffle_rearranges {T : Type} (random : nat -> nat) (arr : list T)
    (n : nat) :
  (shuffle random arr n).1 ≡ₚ arr
  ∧ length (shuffle random arr n).1 = length arr
  ∧ (shuffle random arr n).2 = (n + (length arr - 1))%nat.
Proof.
  split; [apply shuffle_Permutation|].
  unfold shuffle. destruct (shuffle_loop_calls random (length arr - 1) arr n).
  done.
Qed.

(** ** [pickRecipes] *)

(** X2. A successful slot selection returns recipes of the catalog with the
    requested meal type, none of them recent or chosen before, pairwise
    distinct by identifier, [count] of them when [count] is not negative; it
    adds exactly their identifiers to the chosen set. *)
Theorem slot_selection_contract (recipes : list Recipe.t) (random : nat -> nat)
    (mealType : MealType) (count : Z) (recent : gset string) (b : bool)
    (st : State) (sel : list Recipe.t) (b' : bool) (st' : State) :
  pickRecipes recipes random mealType count recent b st = Ok (sel, b', st') →
  (∀ r, r ∈ sel →
     r ∈ recipes ∧ Recipe.mealType r = mealType
     ∧ (Recipe.id r ∉ recent) ∧ (Recipe.id r ∉ chosen st))
  ∧ NoDup (ids sel)
  ∧ chosen st' = list_to_set (ids sel) ∪ chosen st
  ∧ (0 <= count → Z.of_nat (length sel) = count).
Proof.
  intros H.
  apply pickRecipes_Ok in H as (Hall & Hnd & Hfresh & Hch & _ & Hlen).
  repeat split; try done; try (by apply Hall).
  apply Hfresh. apply elem_of_ids. by exists r.
Qed.

(** X3. The beef flag after a successful selection: it is set when it was
    set before or a selected recipe is beef; at most one selected recipe is
    beef, and none when the flag was already set. *)
Theorem slot_selection_beef_flag (recipes : list Recipe.t) (random : nat -> nat)
    (mealType : MealType) (count : Z) (recent : gset string) (b : bool)
    (st : State) (sel : list Recipe.t) (b' : bool) (st' : State) :
  pickRecipes recipes random mealType count recent b st = Ok (sel, b', st') →
  b' = b || existsb is_beef sel
  ∧ (beef_count sel ≤ 1)%nat
  ∧ (b = true → ∀ r, r ∈ sel → Recipe.protein r ≠ "beef").
Proof.
  intros H. apply pickRecipes_Ok in H as (_ & _ & _ & _ & Hcap & _).
  assert (∀ l, existsb is_beef l = bool_decide (beef_count l ≠ 0%nat)) as Hex.
  { induction l as [|r l IH]; [done|]. rewrite beef_count_cons. simpl.
    rewrite IH. by destruct (is_beef r). }
  repeat split.
  - rewrite Hex. destruct b, b'; simpl in *; try case_bool_decide; try done; lia.
  - destruct b, b'; simpl in *; lia.
  - intros -> r Hr Hbeef.
    assert (beef_count sel = 0%nat) as H0 by (destruct b'; simpl in *; lia).
    clear Hcap. induction sel as [|x sel IH]; [by apply elem_of_nil in Hr|].
    rewrite beef_count_cons in H0.
    apply elem_of_cons in Hr as [->|Hr].
    + unfold is_beef in H0. rewrite bool_decide_eq_true_2 in H0 by done.
      simpl in H0. lia.
    + apply IH; [done|lia].
Qed.

(** X4. A count of zero or less selects nothing and throws nothing: the
    beef flag and the chosen set stay as they were. *)
Theorem slot_selection_nothing_requested (recipes : list Recipe.t)
    (random : nat -> nat) (mealType : MealType) (count : Z)
    (recent : gset string) (b : bool) (st : State) :
  count <= 0 →
  ∃ n, pickRecipes recipes random mealType count recent b st
       = Ok ([], b, mkState (chosen st) n).
Proof.
  intros Hc. unfold pickRecipes.
  destruct (shuffle random _ (calls st)) as [cands n].
  rewrite pick_scan_nothing by done.
  rewrite bool_decide_eq_false_2 by (simpl; lia). by exists n.
Qed.

(** When the scan ends short of [count], every candidate it met is chosen by
    then, or is beef with the beef flag set. *)
Lemma pick_scan_exhausted (count : Z) (cands : list Recipe.t) :
  ∀ sel b ch sel' b' ch',
    fold_left (pick_step count) cands (sel, b, ch) = (sel', b', ch') →
    Z.of_nat (length sel') < count →
    ∀ c, c ∈ cands → Recipe.id c ∈ ch' ∨ (is_beef c = true ∧ b' = true).
Proof.
  induction cands as [|r cands IH]; intros sel b ch sel' b' ch' H Hshort c Hc.
  { by apply elem_of_nil in Hc. }
  cbn [fold_left] in H.
  destruct (pick_step count (sel, b, ch) r) as [[s1 b1] c1] eqn:Hstep.
  apply elem_of_cons in Hc as [->|Hc]; [|by eapply IH].
  pose proof (pick_scan count cands _ _ _ _ _ _ H)
    as (added & -> & _ & _ & _ & -> & Hcap & _).
  rewrite length_app in Hshort. simpl in Hstep.
  case_bool_decide as Hlen; [injection Hstep as <- <- <-; lia|].
  case_bool_decide as Hch; [injection Hstep as <- <- <-; left; set_solver|].
  destruct (is_beef r && b) eqn:Hbeef.
  - injection Hstep as <- <- <-. right.
    apply andb_true_iff in Hbeef as [-> ->]. split; [done|].
    destruct b'; [done|simpl in *; lia].
  - injection Hstep as <- <- <-. left. set_solver.
Qed.

Lemma NoDup_ids_inj (l : list Recipe.t) (a s : Recipe.t) :
  NoDup (ids l) → a ∈ l → s ∈ l → Recipe.id a = Recipe.id s → a = s.
Proof.
  induction l as [|x l IH]; [by intros _ ?%elem_of_nil|].
  simpl. intros [Hx Hnd]%NoDup_cons Ha Hs Hid.
  apply elem_of_cons in Ha as [->|Ha]; apply elem_of_cons in Hs as [->|Hs];
    [done| | |by apply IH].
  - exfalso. apply Hx. apply elem_of_ids. exists s. by split.
  - exfalso. apply Hx. apply elem_of_ids. exists a. by split.
Qed.

Lemma length_beef_split (l : list Recipe.t) :
  length l
  = (beef_count l + length (filter (fun r => is_beef r = false) l))%nat.
Proof.
  induction l as [|r l IH]; [done|].
  rewrite beef_count_cons, filter_cons.
  destruct (is_beef r) eqn:E; simpl in *; lia.
Qed.

Lemma beef_count_pos (l : list Recipe.t) :
  (0 < beef_count l)%nat ↔ ∃ r, r ∈ l ∧ is_beef r = true.
Proof.
  induction l as [|x l IH].
  - split; [rewrite beef_count_nil; lia|]. by intros (r & ?%elem_of_nil & _).
  - rewrite beef_count_cons. split.
    + intros H. destruct (is_beef x) eqn:E.
      * exists x. split; [by left|done].
      * simpl in H. apply IH in H as (r & Hr & Hb). exists r.
        split; [by right|done].
    + intros (r & [->|Hr]%elem_of_cons & Hb).
      * rewrite Hb. simpl. lia.
      * assert (0 < beef_count l)%nat by (apply IH; by exists r). lia.
Qed.

(** X5. In a catalog whose identifiers are distinct, slot selection fails
    exactly when the slot cannot be filled: when no [count] recipes of the
    meal type exist that are pairwise distinct, neither recent nor chosen,
    and within the beef cap. The scan gives up on no fillable slot, whatever
    the draws. *)
Theorem slot_selection_fails_iff_unfillable (recipes : list Recipe.t)
    (random : nat -> nat) (mealType : MealType) (count : Z)
    (recent : gset string) (b : bool) (st : State) :
  NoDup (ids recipes) →
  0 <= count →
  pickRecipes recipes random mealType count recent b st
  = Throw (pick_error mealType)
  ↔ ¬ ∃ sel, fills recipes mealType count recent (chosen st) b sel.
Proof.
  intros Hcat Hcount. split; [|by apply pickRecipes_unfillable].
  unfold pickRecipes.
  destruct (shuffle random _ (calls st)) as [cands n] eqn:Hsh.
  destruct (fold_left _ cands _) as [[sel0 b0] ch0] eqn:Hfold.
  case_bool_decide as Hshort; [|done]. intros _ (sel & Hlen & Hall & Hnd & Hfresh & Hcap).
  pose proof (pick_scan_exhausted _ _ _ _ _ _ _ _ Hfold Hshort) as Hex.
  apply pick_scan in Hfold as (added & -> & Hin & _ & _ & -> & Hcap0 & _).
  simpl in *.
  assert (∀ r, r ∈ cands ↔ r ∈ pick_filter recipes mealType recent) as Hcands.
  { intros r.
    rewrite <- (shuffle_elem_of random (pick_filter recipes mealType recent)
                  (calls st) r).
    by rewrite Hsh. }
  assert (∀ s, s ∈ sel → Recipe.id s ∈ ids added → s ∈ added) as Hsame.
  { intros s Hs (a & Ha & Hid)%elem_of_ids.
    assert (a = s) as <-; [|done].
    apply (NoDup_ids_inj recipes); [done| |by apply Hall|done].
    apply Hin, Hcands, elem_of_pick_filter in Ha. by destruct Ha. }
  assert (∀ s, s ∈ sel → s ∈ added ∨ (is_beef s = true ∧ b0 = true)) as Hcase.
  { intros s Hs.
    assert (s ∈ cands) as Hc
      by (apply Hcands, elem_of_pick_filter; by apply Hall).
    destruct (Hex s Hc) as [Hid|Hbeef]; [|by right].
    left. apply Hsame; [done|].
    apply elem_of_union in Hid as [Hid|Hid]; [by apply elem_of_list_to_set in Hid|].
    exfalso. apply (Hfresh (Recipe.id s)); [|done].
    apply elem_of_ids. by exists s. }
  assert (length (filter (fun r => is_beef r = false) sel)
          ≤ length (filter (fun r => is_beef r = false) added))%nat as Hnb.
  { apply submseteq_length, NoDup_submseteq.
    - apply NoDup_filter. eapply NoDup_fmap_1. exact Hnd.
    - intros s [Hb Hs]%list_elem_of_filter. apply list_elem_of_filter.
      split; [done|]. destruct (Hcase s Hs) as [?|[? _]]; [done|congruence]. }
  assert (beef_count sel ≤ beef_count added)%nat as Hbf.
  { destruct (decide (beef_count sel = 0%nat)) as [->|Hpos]; [lia|].
    assert (0 < beef_count sel)%nat as (s & Hs & Hbeef)%beef_count_pos by lia.
    destruct (Hcase s Hs) as [Ha|[_ ->]].
    - assert (0 < beef_count added)%nat by (apply beef_count_pos; by exists s).
      lia.
    - destruct b; simpl in *; lia. }
  rewrite (length_beef_split sel) in Hlen.
  rewrite (length_beef_split added) in Hshort. lia.
Qed.

Lemma slot_selection_fails_iff_unfillable_witness :
  NoDup (ids Sample.catalog)
  ∧ 0 <= 3
  ∧ (pickRecipes Sample.catalog Sample.draws lunch 3 ∅ false (mkState ∅ 0)
     = Throw (pick_error lunch)
     ↔ ¬ ∃ sel, fills Sample.catalog lunch 3 ∅ ∅ false sel).
Proof.
  assert (NoDup (ids Sample.catalog)) as Hnd
    by (apply (bool_decide_unpack _); by vm_compute).
  split; [exact Hnd|]. split; [lia|].
  apply (slot_selection_fails_iff_unfillable Sample.catalog Sample.draws
           lunch 3 ∅ false (mkState ∅ 0) Hnd).
  lia.
Defined.

(** ** [ensureSpanishOrMexican] *)

Lemma ensure_loop_Throw_iff (recipes : list Recipe.t) (random : nat -> nat)
    (rest plan : list Recipe.t) (recent : gset string) (b : bool) :
  ∀ st,
    ensure_loop recipes random rest plan recent b st = Throw cuisine_error
    ↔ ∀ x, x ∈ rest → ¬ admits recipes recent (chosen st) b x.
Proof.
  induction rest as [|x rest IH]; intros st; simpl.
  { split; [by intros _ y ?%elem_of_nil|done]. }
  destruct (shuffle random recipes (calls st)) as [shuffled n] eqn:Hsh.
  assert (∀ c, In c shuffled ↔ c ∈ recipes) as Hin.
  { intros c. rewrite <- list_elem_of_In.
    rewrite <- (shuffle_elem_of random recipes (calls st) c). by rewrite Hsh. }
  destruct (find _ shuffled) as [candidate|] eqn:Hfind.
  - split; [done|]. intros Hnone. exfalso.
    apply find_some in Hfind as [Hc Hrep].
    apply (Hnone x); [by left|]. exists candidate. split; [by apply Hin|done].
  - rewrite IH. simpl. split.
    + intros Hrest y [->|Hy]%elem_of_cons; [|by apply Hrest].
      intros (c & Hc & Hrep). apply Hin in Hc.
      pose proof (find_none _ _ Hfind c Hc) as Hf. simpl in Hf. congruence.
    + intros Hall y Hy. apply Hall. by right.
Qed.

(** X6. The variety repairer fails exactly when no recipe of the selection
    is Spanish or Mexican and no entry admits a replacement; the error it
    raises is always the same one. *)
Theorem repair_fails_iff (recipes : list Recipe.t) (random : nat -> nat)
    (plan : list Recipe.t) (recent : gset string) (b : bool) (st : State) :
  (∀ message,
     ensureSpanishOrMexican recipes random plan recent b st = Throw message →
     message = "No Spanish or Mexican recipes available that satisfy the rules.")
  ∧ (ensureSpanishOrMexican recipes random plan recent b st
     = Throw "No Spanish or Mexican recipes available that satisfy the rules."
     ↔ (∀ r, r ∈ plan → Recipe.cuisine r ≠ "spanish" ∧ Recipe.cuisine r ≠ "mexican")
       ∧ ∀ x, x ∈ plan → ¬ admits recipes recent (chosen st) b x).
Proof.
  unfold ensureSpanishOrMexican.
  destruct (existsb is_iberian plan) eqn:Hib.
  - split; [done|]. split; [done|]. intros [Hnone _]. exfalso.
    apply existsb_is_iberian in Hib as (r & Hr & Hib).
    unfold is_iberian in Hib. apply bool_decide_eq_true in Hib.
    destruct (Hnone r Hr). set_solver.
  - split; [intros message H; by apply ensure_loop_Throw in H|].
    change (Throw "No Spanish or Mexican recipes available that satisfy the rules.")
      with (@Throw (list Recipe.t * bool * State) cuisine_error).
    rewrite ensure_loop_Throw_iff. split; [|by intros [_ ?]].
    intros H. split; [|done]. intros r Hr.
    assert (is_iberian r = false) as Hr'.
    { destruct (is_iberian r) eqn:E; [|done].
      assert (existsb is_iberian plan = true) as Hex
        by (apply existsb_is_iberian; by exists r).
      congruence. }
    unfold is_iberian in Hr'. apply bool_decide_eq_false in Hr'. set_solver.
Qed.

(** ** [buildDateLabels] *)

Section LabelFacts.
Variable formatDay : option string -> nat -> option string.

Lemma labels_from_Ok (weekOf : option string) (days : nat) :
  ∀ i labels,
    labels_from formatDay weekOf i days = Ok labels →
    length labels = days
    ∧ ∀ k, (k < days)%nat → formatDay weekOf (i + k) = labels !! k.
Proof.
  induction days as [|days IH]; intros i labels H; simpl in H.
  - injection H as <-. split; [done|]. lia.
  - destruct (formatDay weekOf i) as [label|] eqn:Hi; [|done].
    unfold mbind, outcome_bind in H.
    destruct (labels_from formatDay weekOf (S i) days) as [rest|] eqn:Hrest;
      [|done].
    injection H as <-. apply IH in Hrest as [Hlen Hrest].
    split; [simpl; lia|]. intros [|k] Hk; simpl.
    + by rewrite Nat.add_0_r.
    + rewrite <- Hrest by lia. f_equal. lia.
Qed.

Lemma labels_from_Throw (weekOf : option string) (days : nat) :
  ∀ i message,
    labels_from formatDay weekOf i days = Throw message ↔
    message = date_error
    ∧ ∃ k, (k < days)%nat ∧ formatDay weekOf (i + k) = None.
Proof.
  induction days as [|days IH]; intros i message; simpl.
  - split; [done|]. intros (_ & k & Hk & _). lia.
  - destruct (formatDay weekOf i) as [label|] eqn:Hi.
    + unfold mbind, outcome_bind.
      destruct (labels_from formatDay weekOf (S i) days) as [rest|m] eqn:Hrest.
      * split; [done|]. intros (-> & k & Hk & Hnone). exfalso.
        destruct k as [|k]; [rewrite Nat.add_0_r in Hnone; congruence|].
        assert (labels_from formatDay weekOf (S i) days = Throw date_error)
          as Hthrow.
        { apply IH. split; [done|]. exists k. split; [lia|].
          rewrite <- Hnone. f_equal. lia. }
        congruence.
      * destruct (proj1 (IH (S i) m) Hrest) as (-> & k & Hk & Hnone).
        split.
        -- intros [= <-]. split; [done|]. exists (S k). split; [lia|].
           rewrite <- Hnone. f_equal. lia.
        -- by intros [-> _].
    + split.
      * intros [= <-]. split; [done|]. exists 0%nat. split; [lia|].
        by rewrite Nat.add_0_r.
      * by intros [-> _].
Qed.

(** X7. [buildDateLabels] returns one label for each of the [totalDays]
    days, in order from the start day, none for a count of zero or less; it
    fails exactly when the formatting of one of those days fails. *)
Theorem date_labels_cover_the_days (weekOf : option string) (totalDays : Z) :
  (∀ labels,
     buildDateLabels formatDay weekOf totalDays = Ok labels →
     length labels = Z.to_nat totalDays
     ∧ ∀ k, (k < Z.to_nat totalDays)%nat → formatDay weekOf k = labels !! k)
  ∧ (∀ message,
       buildDateLabels formatDay weekOf totalDays = Throw message ↔
       message = "Invalid time value"
       ∧ ∃ k, (k < Z.to_nat totalDays)%nat ∧ formatDay weekOf k = None).
Proof.
  unfold buildDateLabels. split.
  - intros labels H. by apply labels_from_Ok in H.
  - intros message. by rewrite labels_from_Throw.
Qed.
End LabelFacts.

(** ** The shape of a generated plan *)

Lemma map_replicate_app {A B : Type} (f : A → B) (n : nat) (x : B) :
  ∀ (l : list A) (rest : list B),
    map f l = replicate n x ++ rest →
    ∃ l1 l2, l = l1 ++ l2 ∧ length l1 = n
             ∧ Forall (fun a => f a = x) l1 ∧ map f l2 = rest.
Proof.
  induction n as [|n IH]; intros l rest H; simpl in H.
  - exists [], l. repeat split; [constructor|done].
  - destruct l as [|a l]; [done|]. simpl in H. injection H as Ha H.
    apply IH in H as (l1 & l2 & -> & Hlen & Hall & Hrest).
    exists (a :: l1), l2. repeat split; [simpl; lia|by constructor|done].
Qed.

Lemma Forall_map_replicate {A B : Type} (f : A → B) (x : B) (l : list A) :
  Forall (fun a => f a = x) l → map f l = replicate (length l) x.
Proof. induction 1 as [|a l Ha _ IH]; simpl; [done|]. by rewrite Ha, IH. Qed.

Lemma of_type_all (mealType : MealType) (l : list Recipe.t) :
  Forall (fun r => Recipe.mealType r = mealType) l → of_type mealType l = l.
Proof.
  unfold of_type. induction 1 as [|r l Hr _ IH]; [done|].
  rewrite filter_cons, decide_True by done. by rewrite IH.
Qed.

Lemma of_type_none (mealType other : MealType) (l : list Recipe.t) :
  other ≠ mealType →
  Forall (fun r => Recipe.mealType r = other) l → of_type mealType l = [].
Proof.
  intros Hne. unfold of_type. induction 1 as [|r l Hr _ IH]; [done|].
  rewrite filter_cons, decide_False by congruence. done.
Qed.

Section ShapeFacts.
Variable recipes : list Recipe.t.
Variable random : nat -> nat.
Variable now : Z.
Variable formatDay : option string -> nat -> option string.
Variable localeCompare : string -> string -> Z.

Lemma pickRecipes_length (mealType : MealType) (count : Z)
    (recent : gset string) (b : bool) (st : State) sel b' st' :
  pickRecipes recipes random mealType count recent b st = Ok (sel, b', st') →
  length sel = Z.to_nat count.
Proof.
  intros H. destruct (decide (0 <= count)) as [Hc|Hc].
  - apply pickRecipes_Ok in H as (_ & _ & _ & _ & _ & Hlen).
    specialize (Hlen Hc). lia.
  - unfold pickRecipes in H.
    destruct (shuffle random _ (calls st)) as [cands n].
    rewrite pick_scan_nothing in H by lia.
    case_bool_decide; [done|]. injection H as <- _ _. simpl. lia.
Qed.

(** The plan behind a response: its breakfasts, lunches and dinners, each
    as many as requested, and the labels of the days. *)
Lemma generate_Ok_shape (request : PlannerRequest.t) (history : gmap string Z)
    (response : PlannerResponse.t) :
  generateWeeklyPlan recipes random now formatDay localeCompare request history
  = Ok response →
  ∃ pb pl pd labels,
    PlannerResponse.meals response
    = addMeals labels breakfast pb ++ addMeals labels lunch pl
      ++ addMeals labels dinner pd
    ∧ PlannerResponse.shoppingList response
      = aggregateShopping localeCompare (pb ++ pl ++ pd)
    ∧ length pb = Z.to_nat (PlannerRequest.breakfasts request)
    ∧ length pl = Z.to_nat (PlannerRequest.lunches request)
    ∧ length pd = Z.to_nat (PlannerRequest.dinners request)
    ∧ Forall (fun r => Recipe.mealType r = breakfast) pb
    ∧ Forall (fun r => Recipe.mealType r = lunch) pl
    ∧ Forall (fun r => Recipe.mealType r = dinner) pd
    ∧ buildDateLabels formatDay (PlannerRequest.weekOf request)
        (Z.max (Z.max (Z.max (PlannerRequest.breakfasts request)
                             (PlannerRequest.lunches request))
                      (PlannerRequest.dinners request)) 5)
      = Ok labels.
Proof.
  unfold generateWeeklyPlan, mbind, outcome_bind.
  destruct (pickRecipes _ _ breakfast _ _ _ _) as [[[bs b1] st1]|] eqn:Hb; [|done].
  destruct (pickRecipes _ _ lunch _ _ _ _) as [[[ls b2] st2]|] eqn:Hl; [|done].
  destruct (pickRecipes _ _ dinner _ _ _ _) as [[[ds b3] st3]|] eqn:Hd; [|done].
  destruct (ensureSpanishOrMexican _ _ _ _ _ _) as [[[plan b4] st4]|] eqn:He; [|done].
  destruct (buildDateLabels _ _ _) as [labels|] eqn:Hlabels; [|done].
  intros [= <-]. simpl.
  destruct (picks_Ok recipes random localeCompare request (dom history)
              _ _ _ _ _ _ _ _ _ Hb Hl Hd) as (Hnd & _).
  pose proof (pickRecipes_length _ _ _ _ _ _ _ _ Hb) as Hnb.
  pose proof (pickRecipes_length _ _ _ _ _ _ _ _ Hl) as Hnl.
  pose proof (pickRecipes_length _ _ _ _ _ _ _ _ Hd) as Hnd'.
  apply pickRecipes_Ok in Hb as (Hbt & _).
  apply pickRecipes_Ok in Hl as (Hlt & _).
  apply pickRecipes_Ok in Hd as (Hdt & _).
  assert (map Recipe.mealType plan = map Recipe.mealType (bs ++ ls ++ ds))
    as Htypes.
  { apply ensure_Ok_cases in He as [(_ & -> & _)|(_ & He)]; [done| |done].
    destruct He as (pre & old & post & candidate & -> & -> & _ & Hrep & _).
    apply replaces_true in Hrep as (Hm & _).
    rewrite !map_app. simpl. by rewrite Hm. }
  rewrite !map_app in Htypes.
  rewrite (Forall_map_replicate _ breakfast bs) in Htypes
    by (apply Forall_forall; intros r Hr; by apply Hbt).
  rewrite (Forall_map_replicate _ lunch ls) in Htypes
    by (apply Forall_forall; intros r Hr; by apply Hlt).
  rewrite (Forall_map_replicate _ dinner ds) in Htypes
    by (apply Forall_forall; intros r Hr; by apply Hdt).
  apply map_replicate_app in Htypes as (pb & rest & -> & Hpb & Hfb & Htypes).
  apply map_replicate_app in Htypes as (pl & pd & -> & Hpl & Hfl & Htypes).
  assert (Forall (fun r => Recipe.mealType r = dinner) pd ∧ length pd = length ds)
    as [Hfd Hpd].
  { rewrite <- (app_nil_r (replicate _ _)) in Htypes.
    apply map_replicate_app in Htypes as (l1 & l2 & -> & ? & ? & Hnil).
    destruct l2; [|done]. by rewrite app_nil_r. }
  exists pb, pl, pd, labels.
  unfold of_type. rewrite !(filter_app _ pb), !(filter_app _ pl).
  fold (of_type breakfast pb) (of_type breakfast pl) (of_type breakfast pd)
       (of_type lunch pb) (of_type lunch pl) (of_type lunch pd)
       (of_type dinner pb) (of_type dinner pl) (of_type dinner pd).
  rewrite (of_type_all breakfast pb), (of_type_none breakfast lunch pl),
    (of_type_none breakfast dinner pd), (of_type_none lunch breakfast pb),
    (of_type_all lunch pl), (of_type_none lunch dinner pd),
    (of_type_none dinner breakfast pb), (of_type_none dinner lunch pl),
    (of_type_all dinner pd) by done.
  rewrite !app_nil_r. simpl.
  repeat split; try done; congruence.
Qed.
End ShapeFacts.

Lemma addMeals_lookup (dateLabels : list string) (mealType : MealType)
    (selections : list Recipe.t) (meal : PlannedMeal.t) :
  meal ∈ addMeals dateLabels mealType selections →
  ∃ i r, selections !! i = Some r
         ∧ PlannedMeal.dayIndex meal = i
         ∧ PlannedMeal.mealType meal = mealType
         ∧ PlannedMeal.recipe meal = r
         ∧ PlannedMeal.dateLabel meal
           = match dateLabels !! i with
             | Some label => label
             | None => default "" (last dateLabels)
             end.
Proof.
  unfold addMeals. intros (i & r & -> & Hr)%elem_of_lookup_imap.
  by exists i, r.
Qed.

Lemma addMeals_types (dateLabels : list string) (mealType : MealType)
    (selections : list Recipe.t) :
  map PlannedMeal.mealType (addMeals dateLabels mealType selections)
  = replicate (length selections) mealType.
Proof.
  unfold addMeals. apply list_eq. intros i.
  rewrite list_lookup_fmap, list_lookup_imap.
  destruct (selections !! i) as [r|] eqn:Hi; simpl.
  - symmetry. apply lookup_replicate_2. by apply lookup_lt_Some in Hi.
  - symmetry. apply lookup_replicate_None. by apply lookup_ge_None.
Qed.

Lemma addMeals_days (dateLabels : list string) (mealType : MealType)
    (selections : list Recipe.t) :
  map PlannedMeal.dayIndex (addMeals dateLabels mealType selections)
  = seq 0 (length selections).
Proof.
  unfold addMeals. apply list_eq. intros i.
  rewrite list_lookup_fmap, list_lookup_imap.
  destruct (selections !! i) as [r|] eqn:Hi; simpl.
  - symmetry. apply lookup_seq. split; [done|]. by apply lookup_lt_Some in Hi.
  - symmetry. apply lookup_seq_ge. by apply lookup_ge_None.
Qed.

Section AssemblyProperties.
Variable recipes : list Recipe.t.
Variable random : nat -> nat.
Variable now : Z.
Variable formatDay : option string -> nat -> option string.
Variable localeCompare : string -> string -> Z.

Local Abbreviation generate :=
  (generateWeeklyPlan recipes random now formatDay localeCompare).

(** X8. The meals of a returned plan come grouped: the requested number of
    breakfasts, then of lunches, then of dinners (a negative count giving
    none), and each meal is filed under the meal type of its recipe. *)
Theorem meals_grouped_by_type (request : PlannerRequest.t)
    (history : gmap string Z) (response : PlannerResponse.t) :
  generate request history = Ok response →
  map PlannedMeal.mealType (PlannerResponse.meals response)
  = replicate (Z.to_nat (PlannerRequest.breakfasts request)) breakfast
    ++ replicate (Z.to_nat (PlannerRequest.lunches request)) lunch
    ++ replicate (Z.to_nat (PlannerRequest.dinners request)) dinner
  ∧ ∀ meal, meal ∈ PlannerResponse.meals response →
            PlannedMeal.mealType meal
            = Recipe.mealType (PlannedMeal.recipe meal).
Proof.
  intros H. apply generate_Ok_shape in H
    as (pb & pl & pd & labels & -> & _ & Hb & Hl & Hd & Hfb & Hfl & Hfd & _).
  split.
  - rewrite !map_app, !addMeals_types. by rewrite Hb, Hl, Hd.
  - rewrite Forall_forall in Hfb, Hfl, Hfd.
    intros meal [Hm|[Hm|Hm]%elem_of_app]%elem_of_app;
      apply addMeals_lookup in Hm as (i & r & Hr & _ & -> & -> & _);
      apply list_elem_of_lookup_2 in Hr; symmetry; auto.
Qed.

(** X9. The day index of a meal is its position among the meals of its own
    type: it restarts at 0 for the lunches and again for the dinners. *)
Theorem day_index_restarts_per_type (request : PlannerRequest.t)
    (history : gmap string Z) (response : PlannerResponse.t) :
  generate request history = Ok response →
  map PlannedMeal.dayIndex (PlannerResponse.meals response)
  = seq 0 (Z.to_nat (PlannerRequest.breakfasts request))
    ++ seq 0 (Z.to_nat (PlannerRequest.lunches request))
    ++ seq 0 (Z.to_nat (PlannerRequest.dinners request)).
Proof.
  intros H. apply generate_Ok_shape in H
    as (pb & pl & pd & labels & -> & _ & Hb & Hl & Hd & _).
  rewrite !map_app, !addMeals_days. by rewrite Hb, Hl, Hd.
Qed.

(** X10. Every meal of a returned plan carries the label of its own day:
    the label array always reaches past the last day index, so the fallback
    to the last label is never taken. *)
Theorem date_label_of_own_day (request : PlannerRequest.t)
    (history : gmap string Z) (response : PlannerResponse.t) :
  generate request history = Ok response →
  ∀ meal, meal ∈ PlannerResponse.meals response →
          formatDay (PlannerRequest.weekOf request) (PlannedMeal.dayIndex meal)
          = Some (PlannedMeal.dateLabel meal).
Proof.
  intros H. apply generate_Ok_shape in H
    as (pb & pl & pd & labels & -> & _ & Hb & Hl & Hd & _ & _ & _ & Hlabels).
  unfold buildDateLabels in Hlabels.
  apply labels_from_Ok in Hlabels as [Hlen Hlabels].
  assert (∀ mealType sel meal,
            (length sel ≤ length labels)%nat →
            meal ∈ addMeals labels mealType sel →
            formatDay (PlannerRequest.weekOf request) (PlannedMeal.dayIndex meal)
            = Some (PlannedMeal.dateLabel meal)) as Hone.
  { intros mealType sel meal Hsel (i & r & Hr & -> & _ & _ & ->)%addMeals_lookup.
    apply lookup_lt_Some in Hr.
    assert ((i < Z.to_nat
                   (Z.max (Z.max (Z.max (PlannerRequest.breakfasts request)
                                        (PlannerRequest.lunches request))
                                 (PlannerRequest.dinners request)) 5))%nat)
      as Hi' by lia.
    specialize (Hlabels i Hi'). simpl in Hlabels. rewrite Hlabels.
    destruct (labels !! i) as [label|] eqn:Hi; [done|].
    apply lookup_ge_None in Hi. lia. }
  intros meal [Hm|[Hm|Hm]%elem_of_app]%elem_of_app;
    (eapply Hone; [|exact Hm]); lia.
Qed.
End AssemblyProperties.

(** ** [generateWeeklyPlan]: errors, edge cases and successive plans *)

Lemma pickRecipes_clamp (recipes : list Recipe.t) (random : nat -> nat)
    (mealType : MealType) (count : Z) (recent : gset string) (b : bool)
    (st : State) :
  pickRecipes recipes random mealType count recent b st
  = pickRecipes recipes random mealType (Z.max 0 count) recent b st.
Proof.
  destruct (decide (0 <= count)) as [Hc|Hc].
  - by rewrite Z.max_r.
  - rewrite Z.max_l by lia. unfold pickRecipes.
    destruct (shuffle random _ (calls st)) as [cands n].
    rewrite !pick_scan_nothing by lia.
    by rewrite !bool_decide_eq_false_2 by (simpl; lia).
Qed.

Section RunProperties.
Variable recipes : list Recipe.t.
Variable formatDay : option string -> nat -> option string.
Variable localeCompare : string -> string -> Z.

(** X11. Every recipe of a returned plan is a recipe of the catalog. *)
Theorem plan_from_catalog (random : nat -> nat) (now : Z)
    (request : PlannerRequest.t) (history : gmap string Z)
    (response : PlannerResponse.t) :
  generateWeeklyPlan recipes random now formatDay localeCompare request history
  = Ok response →
  ∀ meal, meal ∈ PlannerResponse.meals response →
          PlannedMeal.recipe meal ∈ recipes.
Proof.
  intros H meal Hmeal.
  apply generate_Ok in H as (plan & Hperm & _ & _ & _ & _ & Hall & _).
  apply Hall. rewrite <- Hperm. unfold planned.
  apply list_elem_of_fmap. by exists meal.
Qed.

(** X12. [generateWeeklyPlan] fails in three ways only: a slot selection
    that names its meal type, the variety repair, or the formatting of a
    date. *)
Theorem generate_errors (random : nat -> nat) (now : Z)
    (request : PlannerRequest.t) (history : gmap string Z) (message : string) :
  generateWeeklyPlan recipes random now formatDay localeCompare request history
  = Throw message →
  message = "Not enough breakfast recipes available without repeats or beef overage."
  ∨ message = "Not enough lunch recipes available without repeats or beef overage."
  ∨ message = "Not enough dinner recipes available without repeats or beef overage."
  ∨ message = "No Spanish or Mexican recipes available that satisfy the rules."
  ∨ message = "Invalid time value".
Proof.
  unfold generateWeeklyPlan, mbind, outcome_bind.
  destruct (pickRecipes _ _ breakfast _ _ _ _) as [[[bs b1] st1]|m] eqn:Hb.
  2:{ intros [= <-]. apply pickRecipes_Throw in Hb as ->. by left. }
  destruct (pickRecipes _ _ lunch _ _ _ _) as [[[ls b2] st2]|m] eqn:Hl.
  2:{ intros [= <-]. apply pickRecipes_Throw in Hl as ->. right. by left. }
  destruct (pickRecipes _ _ dinner _ _ _ _) as [[[ds b3] st3]|m] eqn:Hd.
  2:{ intros [= <-]. apply pickRecipes_Throw in Hd as ->. right. right. by left. }
  destruct (ensureSpanishOrMexican _ _ _ _ _ _) as [[[plan b4] st4]|m] eqn:He.
  2:{ intros [= <-]. unfold ensureSpanishOrMexican in He.
      destruct (existsb is_iberian _); [done|].
      apply ensure_loop_Throw in He as ->. right. right. right. by left. }
  destruct (buildDateLabels _ _ _) as [labels|m] eqn:Hlabels; [done|].
  intros [= <-]. unfold buildDateLabels in Hlabels.
  apply labels_from_Throw in Hlabels as [-> _]. repeat right. done.
Qed.

(** X13. A negative count is served like a count of zero: the request
    behaves as the one with each count raised to at least zero. *)
Theorem negative_counts_as_zero (random : nat -> nat) (now : Z)
    (breakfasts lunches dinners : Z) (weekOf : option string)
    (history : gmap string Z) :
  generateWeeklyPlan recipes random now formatDay localeCompare
    (PlannerRequest.mk breakfasts lunches dinners weekOf) history
  = generateWeeklyPlan recipes random now formatDay localeCompare
      (PlannerRequest.mk (Z.max 0 breakfasts) (Z.max 0 lunches)
         (Z.max 0 dinners) weekOf) history.
Proof.
  unfold generateWeeklyPlan. simpl.
  rewrite (pickRecipes_clamp _ _ breakfast breakfasts).
  destruct (pickRecipes _ _ breakfast _ _ _ _) as [[[bs b1] st1]|m]; [|done].
  simpl. rewrite (pickRecipes_clamp _ _ lunch lunches).
  destruct (pickRecipes _ _ lunch _ _ _ _) as [[[ls b2] st2]|m']; [|done].
  simpl. rewrite (pickRecipes_clamp _ _ dinner dinners).
  destruct (pickRecipes _ _ dinner _ _ _ _) as [[[ds b3] st3]|m'']; [|done].
  simpl.
  replace (Z.max (Z.max (Z.max (Z.max 0 breakfasts) (Z.max 0 lunches))
                    (Z.max 0 dinners)) 5)
    with (Z.max (Z.max (Z.max breakfasts lunches) dinners) 5) by lia.
  done.
Qed.

(** X14. A plan generated from the history that an earlier plan returned
    repeats none of the earlier plan's recipes, whatever the two requests
    and the draws of the two runs. *)
Theorem successive_plans_share_no_recipe (random1 random2 : nat -> nat)
    (now1 now2 : Z) (request1 request2 : PlannerRequest.t)
    (history : gmap string Z) (response1 response2 : PlannerResponse.t) :
  generateWeeklyPlan recipes random1 now1 formatDay localeCompare
    request1 history = Ok response1 →
  generateWeeklyPlan recipes random2 now2 formatDay localeCompare
    request2 (PlannerResponse.updatedHistory response1) = Ok response2 →
  ∀ meal1 meal2,
    meal1 ∈ PlannerResponse.meals response1 →
    meal2 ∈ PlannerResponse.meals response2 →
    Recipe.id (PlannedMeal.recipe meal1) ≠ Recipe.id (PlannedMeal.recipe meal2).
Proof.
  intros H1 H2 meal1 meal2 Hm1 Hm2 Hid.
  apply generate_Ok in H1 as (plan1 & Hperm1 & _ & Hup & _).
  apply generate_Ok in H2 as (plan2 & Hperm2 & _ & _ & _ & _ & Hall2 & _).
  assert (PlannedMeal.recipe meal2 ∈ plan2) as Hr2.
  { rewrite <- Hperm2. unfold planned. apply list_elem_of_fmap. by exists meal2. }
  destruct (Hall2 _ Hr2) as [_ Hfresh]. apply Hfresh.
  rewrite Hup. apply elem_of_dom. rewrite record_history_lookup.
  rewrite bool_decide_eq_true_2; [done|].
  rewrite <- Hid. apply elem_of_ids. exists (PlannedMeal.recipe meal1).
  split; [|done]. rewrite <- Hperm1. unfold planned.
  apply list_elem_of_fmap. by exists meal1.
Qed.
End RunProperties.

(** ** [aggregateShopping]: what a line holds *)

Lemma elem_of_map_set (key : string) (value : ShoppingLineItem.t)
    (m : list (string * ShoppingLineItem.t)) (k : string)
    (v : ShoppingLineItem.t) :
  NoDup (map fst m) →
  (k, v) ∈ map_set key value m →
  (k = key ∧ v = value) ∨ (k ≠ key ∧ (k, v) ∈ m).
Proof.
  induction m as [|[k0 v0] m IH]; simpl; intros Hnd Hin.
  - apply list_elem_of_singleton in Hin as [= -> ->]. by left.
  - apply NoDup_cons in Hnd as [Hk0 Hnd].
    case_bool_decide as Hk; subst.
    + apply elem_of_cons in Hin as [[= -> ->]|Hin]; [by left|].
      right. split; [|by right]. intros ->. apply Hk0.
      apply list_elem_of_fmap. by exists (key, v).
    + apply elem_of_cons in Hin as [[= -> ->]|Hin].
      * right. split; [done|by left].
      * destruct (IH Hnd Hin) as [?|[? ?]]; [by left|].
        right. split; [done|by right].
Qed.

Lemma first_with_snoc (k : string) (ingredients : list Ingredient.t)
    (x : Ingredient.t) :
  first_with k (ingredients ++ [x])
  = match first_with k ingredients with
    | Some i => Some i
    | None => if bool_decide (ingredient_key x = k) then Some x else None
    end.
Proof.
  unfold first_with. induction ingredients as [|i l IH]; simpl; [done|].
  by destruct (bool_decide (ingredient_key i = k)).
Qed.

Lemma first_with_None (k : string) (ingredients : list Ingredient.t) :
  k ∉ map ingredient_key ingredients → first_with k ingredients = None.
Proof.
  unfold first_with. induction ingredients as [|i l IH]; simpl; [done|].
  intros [Hi Hl]%not_elem_of_cons.
  rewrite bool_decide_eq_false_2 by congruence. by apply IH.
Qed.

(** What every line of the aggregation map holds, once the entries
    [ingredients] have been merged into it. *)
Lemma add_ingredients_lines (ingredients : list Ingredient.t) :
  ∀ k v,
    (k, v) ∈ fold_left add_ingredient ingredients [] →
    (∃ i, first_with k ingredients = Some i
          ∧ ShoppingLineItem.item v = Ingredient.item i
          ∧ ∀ u, Ingredient.unit i = Some u → ShoppingLineItem.unit v = Some u)
    ∧ (ShoppingLineItem.quantity v = None →
       ∀ i, i ∈ ingredients → ingredient_key i = k →
            Ingredient.quantity i = None).
Proof.
  induction ingredients as [|x ingredients IH] using rev_ind; intros k v Hin.
  { by apply elem_of_nil in Hin. }
  rewrite fold_left_app in Hin. simpl in Hin.
  assert (keyed []) as H0 by (split; constructor).
  destruct (add_ingredients_keyed ingredients [] H0) as [[Hnd Hall] Hkeys].
  set (m := fold_left add_ingredient ingredients []) in *.
  rewrite first_with_snoc.
  assert (∀ v', (k, v') ∈ m →
                (∀ i, i ∈ ingredients ++ [x] → ingredient_key i = k →
                      ingredient_key x ≠ k →
                      ShoppingLineItem.quantity v' = None →
                      Ingredient.quantity i = None)) as Hold.
  { intros v' Hv' i [Hi|Hi%list_elem_of_singleton]%elem_of_app Hk Hx Hq;
      [|by subst]. by apply (proj2 (IH k v' Hv')). }
  unfold add_ingredient in Hin. fold (ingredient_key x) in Hin.
  destruct (map_get (ingredient_key x) m) as [existing|] eqn:Hget.
  - apply map_get_Some in Hget.
    destruct (IH _ _ Hget) as [(i & Hfirst & Hitem & Hunit) Hquant].
    assert ((k, v) ∈ m ∧ ingredient_key x ≠ k
            ∨ k = ingredient_key x ∧ v = merged existing x) as [[Hv Hk]|[-> ->]].
    { unfold merged.
      destruct (truthy _ && truthy _);
        apply elem_of_map_set in Hin as [[-> ->]|[? ?]]; auto. }
    + destruct (IH _ _ Hv) as [(j & Hj & ?) ?]. split.
      * exists j. rewrite Hj. done.
      * intros Hq j' Hj' Hk'. by apply (Hold v Hv).
    + split.
      * exists i. rewrite Hfirst. split; [done|]. unfold merged.
        destruct (truthy _ && truthy _); simpl; split; try done.
        intros u Hu. by rewrite (Hunit u Hu).
      * unfold merged. destruct (truthy _ && truthy _); simpl; [done|].
        intros Hq j [Hj|Hj%list_elem_of_singleton]%elem_of_app Hk;
          unfold nullish in Hq.
        -- apply Hquant; [|done|done].
           by destruct (ShoppingLineItem.quantity existing).
        -- subst j. by destruct (ShoppingLineItem.quantity existing).
  - apply map_get_None in Hget.
    apply elem_of_map_set in Hin as [[-> ->]|[Hk Hv]]; [| |done].
    + assert (ingredient_key x ∉ map ingredient_key ingredients) as Hnew.
      { intros Hx. apply Hget.
        apply (elem_of_list_to_set (C := gset string)). rewrite Hkeys.
        apply elem_of_union_l. by apply elem_of_list_to_set. }
      rewrite (first_with_None _ _ Hnew).
      rewrite bool_decide_eq_true_2 by done. split.
      * by exists x.
      * simpl. intros Hq j [Hj|Hj%list_elem_of_singleton]%elem_of_app Hk;
          [|by subst]. exfalso. apply Hnew. apply list_elem_of_fmap. by exists j.
    + destruct (IH _ _ Hv) as [(j & Hj & ?) ?]. split.
      * exists j. rewrite Hj. done.
      * intros Hq j' Hj' Hk'. by apply (Hold v Hv).
Qed.

Section LineProperties.
Variable localeCompare : string -> string -> Z.

Lemma elem_of_aggregateShopping (meals : list Recipe.t)
    (line : ShoppingLineItem.t) :
  line ∈ aggregateShopping localeCompare meals
  ↔ (item_key line, line) ∈ fold_left add_ingredient (all_ingredients meals) [].
Proof.
  unfold aggregateShopping. rewrite sort_items_Permutation, add_recipes_flat.
  assert (keyed []) as H0 by (split; constructor).
  destruct (add_ingredients_keyed (all_ingredients meals) [] H0) as [[_ Hall] _].
  rewrite Forall_forall in Hall.
  split.
  - intros ([k v] & -> & Hin)%list_elem_of_fmap.
    by rewrite (Hall _ Hin).
  - intros Hin. apply list_elem_of_fmap. by exists (item_key line, line).
Qed.

Lemma elem_of_all_ingredients (meals : list Recipe.t) (i : Ingredient.t) :
  i ∈ all_ingredients meals ↔ ∃ r, r ∈ meals ∧ i ∈ Recipe.ingredients r.
Proof. unfold all_ingredients. rewrite list_elem_of_bind. naive_solver. Qed.

(** X15. The shopping list has a line for the name of every ingredient
    entry of every recipe, compared without case, no line for any other
    name, and no two lines for one name. *)
Theorem shopping_list_covers_ingredients (meals : list Recipe.t) :
  (∀ r i, r ∈ meals → i ∈ Recipe.ingredients r →
          ∃ line, line ∈ aggregateShopping localeCompare meals
                  ∧ toLowerCase (ShoppingLineItem.item line)
                    = toLowerCase (Ingredient.item i))
  ∧ (∀ line, line ∈ aggregateShopping localeCompare meals →
             ∃ r i, r ∈ meals ∧ i ∈ Recipe.ingredients r
                    ∧ toLowerCase (Ingredient.item i)
                      = toLowerCase (ShoppingLineItem.item line))
  ∧ NoDup (map (fun line => toLowerCase (ShoppingLineItem.item line))
             (aggregateShopping localeCompare meals)).
Proof.
  destruct (aggregateShopping_keys localeCompare meals) as [Hnd Hkeys].
  repeat split.
  - intros r i Hr Hi.
    assert (ingredient_key i
            ∈ map item_key (aggregateShopping localeCompare meals)) as Hin.
    { apply Hkeys. apply list_elem_of_fmap. exists i. split; [done|].
      apply elem_of_all_ingredients. by exists r. }
    apply list_elem_of_fmap in Hin as (line & Hline & Hin). by exists line.
  - intros line Hline.
    assert (item_key line ∈ map ingredient_key (all_ingredients meals)) as Hin.
    { apply Hkeys. apply list_elem_of_fmap. by exists line. }
    apply list_elem_of_fmap in Hin as (i & Hi & Hin).
    apply elem_of_all_ingredients in Hin as (r & Hr & Hin). by exists r, i.
  - exact Hnd.
Qed.

(** X16. A line is spelled like the first entry with its name, in the
    order the recipes and their ingredients are read, and it has that
    entry's unit when the entry has one. *)
Theorem shopping_line_follows_first_entry (meals : list Recipe.t)
    (line : ShoppingLineItem.t) :
  line ∈ aggregateShopping localeCompare meals →
  ∃ i, first_with (toLowerCase (ShoppingLineItem.item line))
         (all_ingredients meals) = Some i
       ∧ ShoppingLineItem.item line = Ingredient.item i
       ∧ ∀ u, Ingredient.unit i = Some u → ShoppingLineItem.unit line = Some u.
Proof.
  intros Hline%elem_of_aggregateShopping.
  by destruct (add_ingredients_lines _ _ _ Hline) as [? _].
Qed.

(** X17. A line is left without a quantity only when no entry with its
    name has one. *)
Theorem shopping_line_without_quantity (meals : list Recipe.t)
    (line : ShoppingLineItem.t) :
  line ∈ aggregateShopping localeCompare meals →
  ShoppingLineItem.quantity line = None →
  ∀ r i, r ∈ meals → i ∈ Recipe.ingredients r →
         toLowerCase (Ingredient.item i)
         = toLowerCase (ShoppingLineItem.item line) →
         Ingredient.quantity i = None.
Proof.
  intros Hline%elem_of_aggregateShopping Hq r i Hr Hi Hk.
  destruct (add_ingredients_lines _ _ _ Hline) as [_ Hnone].
  apply Hnone; [done| |done]. apply elem_of_all_ingredients. by exists r.
Qed.

Lemma sort_insert_HdRel (a b : ShoppingLineItem.t)
    (l : list ShoppingLineItem.t) :
  line_le localeCompare b a →
  HdRel (line_le localeCompare) b l →
  HdRel (line_le localeCompare) b (sort_insert localeCompare a l).
Proof.
  intros Hba Hl. destruct l as [|c l]; simpl; [by constructor|].
  case_bool_decide; constructor; [done|]. by inversion Hl.
Qed.

(** X18. With a comparator that never puts each of two names after the
    other, the shopping list comes out in order: no line is sorted after
    the line that follows it. *)
Theorem shopping_list_sorted (meals : list Recipe.t) :
  (∀ a b, localeCompare a b > 0 → localeCompare b a <= 0) →
  Sorted (line_le localeCompare) (aggregateShopping localeCompare meals).
Proof.
  intros Htotal. unfold aggregateShopping, sort_items.
  induction (map snd (fold_left add_recipe meals [])) as [|a l IH]; simpl.
  { constructor. }
  induction IH as [|b l' Hl' IH' Hb]; simpl.
  - repeat constructor.
  - case_bool_decide as Hab.
    + constructor; [by constructor|]. by constructor.
    + constructor; [done|]. apply sort_insert_HdRel; [|done].
      unfold line_le. apply Htotal. lia.
Qed.
End LineProperties.

(** ** [loadRecentHistory] and [persistHistory] *)

Section StorageProperties.
Variable parse : string -> outcome (gmap string Z).
Variable stringify : gmap string Z -> string.

Lemma filter_recent_all (cutoff : Z) (parsed : gmap string Z) :
  size (filter (fun entry : string * Z => entry.2 >= cutoff) parsed)
  = size parsed
  ↔ ∀ id ts, parsed !! id = Some ts → cutoff <= ts.
Proof.
  split.
  - intros Hsize id ts Hts.
    assert (filter (fun entry : string * Z => entry.2 >= cutoff) parsed = parsed)
      as Heq by (apply map_subseteq_size_eq; [apply map_filter_subseteq|lia]).
    rewrite <- Heq in Hts. apply map_lookup_filter_Some in Hts as [_ Hge].
    simpl in Hge. lia.
  - intros Hall. f_equal. apply map_eq. intros id.
    destruct (parsed !! id) as [ts|] eqn:Hts.
    + apply map_lookup_filter_Some. split; [done|]. simpl.
      specialize (Hall id ts Hts). lia.
    + apply map_lookup_filter_None. by left.
Qed.

(** X19. What [loadRecentHistory] returns from a stored history: exactly
    its entries that are at most 30 days (2 592 000 000 ms) old; and it
    rewrites the stored text, with those entries, exactly when it has
    dropped one. Nothing else in the storage changes. *)
Theorem load_keeps_the_last_30_days (now : Z)
    (localStorage : gmap string string) (stored : string)
    (parsed : gmap string Z) :
  localStorage !! HISTORY_KEY = Some stored →
  stored ≠ "" →
  parse stored = Ok parsed →
  ∃ history localStorage',
    loadRecentHistory true parse stringify now localStorage
    = Ok (history, localStorage')
    ∧ (∀ id ts, history !! id = Some ts
                ↔ parsed !! id = Some ts ∧ now - 2592000000 <= ts)
    ∧ ((∀ id ts, parsed !! id = Some ts → now - 2592000000 <= ts) →
       localStorage' = localStorage)
    ∧ ((∃ id ts, parsed !! id = Some ts ∧ ts < now - 2592000000) →
       localStorage' = <[HISTORY_KEY := stringify history]> localStorage).
Proof.
  intros Hstored Hne Hparse. unfold loadRecentHistory. simpl.
  rewrite Hstored, bool_decide_eq_false_2 by done.
  unfold mbind, outcome_bind. rewrite Hparse.
  change (now - DAYS_TO_AVOID * 24 * 60 * 60 * 1000) with (now - 2592000000).
  set (filtered := filter (fun entry : string * Z => entry.2 >= now - 2592000000)
                     parsed).
  assert (∀ id ts, filtered !! id = Some ts
                   ↔ parsed !! id = Some ts ∧ now - 2592000000 <= ts) as Hlookup.
  { intros id ts. unfold filtered. rewrite map_lookup_filter_Some. simpl.
    split; intros [? ?]; split; try done; lia. }
  pose proof (filter_recent_all (now - 2592000000) parsed) as Hall.
  fold filtered in Hall.
  case_bool_decide as Hsize.
  - eexists _, _. split; [done|]. split; [done|]. split; [|done].
    intros Hrecent. apply Hall in Hrecent. done.
  - eexists _, _. split; [done|]. split; [done|]. split; [done|].
    intros (id & ts & Hts & Hold). exfalso.
    assert (size filtered = size parsed) as Hs by (destruct (decide (size filtered = size parsed)); [done|by elim Hsize]).
    pose proof (proj1 Hall Hs id ts Hts). lia.
Qed.

(** X20. Without a window, without a stored text, or with an empty one, the
    history is empty and the storage is left alone; a stored text that does
    not parse makes the load throw. *)
Theorem load_without_history (window : bool) (now : Z)
    (localStorage : gmap string string) :
  (window = false ∨ localStorage !! HISTORY_KEY = None
   ∨ localStorage !! HISTORY_KEY = Some "" →
   loadRecentHistory window parse stringify now localStorage
   = Ok (∅, localStorage))
  ∧ (∀ stored message,
       window = true → localStorage !! HISTORY_KEY = Some stored →
       stored ≠ "" → parse stored = Throw message →
       loadRecentHistory window parse stringify now localStorage
       = Throw message).
Proof.
  split.
  - unfold loadRecentHistory. intros [->|[H|H]]; [done| |].
    + destruct window; simpl; [|done]. by rewrite H.
    + destruct window; simpl; [|done]. by rewrite H.
  - intros stored message -> Hstored Hne Hparse. unfold loadRecentHistory.
    simpl. rewrite Hstored, bool_decide_eq_false_2 by done.
    unfold mbind, outcome_bind. by rewrite Hparse.
Qed.

(** X21. A history whose entries are all at most 30 days old is read back
    as it was persisted, and reading it does not touch the storage (given
    that the text [JSON.stringify] writes parses back to the history). *)
Theorem persist_then_load (now : Z) (history : gmap string Z)
    (localStorage : gmap string string) :
  parse (stringify history) = Ok history →
  stringify history ≠ "" →
  (∀ id ts, history !! id = Some ts → now - 2592000000 <= ts) →
  loadRecentHistory true parse stringify now
    (persistHistory true stringify history localStorage)
  = Ok (history, persistHistory true stringify history localStorage).
Proof.
  intros Hparse Hne Hrecent. unfold persistHistory. simpl.
  unfold loadRecentHistory. simpl.
  rewrite lookup_insert_eq, bool_decide_eq_false_2 by done.
  unfold mbind, outcome_bind. rewrite Hparse.
  change (now - DAYS_TO_AVOID * 24 * 60 * 60 * 1000) with (now - 2592000000).
  pose proof (proj2 (filter_recent_all (now - 2592000000) history) Hrecent)
    as Hsize.
  rewrite bool_decide_eq_false_2 by (intros Hs; by apply Hs).
  do 2 f_equal. apply map_subseteq_size_eq; [apply map_filter_subseteq|lia].
Qed.
End StorageProperties.

Lemma load_after_persist (parse : string -> outcome (gmap string Z))
    (stringify : gmap string Z -> string) (now : Z)
    (saved history : gmap string Z) (localStorage localStorage' : gmap string string) :
  parse (stringify saved) = Ok saved →
  stringify saved ≠ "" →
  loadRecentHistory true parse stringify now
    (persistHistory true stringify saved localStorage)
  = Ok (history, localStorage') →
  ∀ id ts, history !! id = Some ts
           ↔ saved !! id = Some ts ∧ now - 2592000000 <= ts.
Proof.
  intros Hparse Hne. unfold persistHistory, loadRecentHistory. simpl.
  rewrite lookup_insert_eq, bool_decide_eq_false_2 by done.
  unfold mbind, outcome_bind. rewrite Hparse.
  change (now - DAYS_TO_AVOID * 24 * 60 * 60 * 1000) with (now - 2592000000).
  intros Hload id ts.
  assert (history
          = filter (fun entry : string * Z => entry.2 >= now - 2592000000) saved)
    as -> by (case_bool_decide; by injection Hload as <- _).
  rewrite map_lookup_filter_Some. simpl.
  split; intros [? ?]; split; try done; lia.
Qed.

Section RetentionProperties.
Variable recipes : list Recipe.t.
Variable formatDay : option string -> nat -> option string.
Variable localeCompare : string -> string -> Z.
Variable parse : string -> outcome (gmap string Z).
Variable stringify : gmap string Z -> string.

(** X22. No repeats within 30 days: when the history a plan returned is
    persisted and loaded again no later than 30 days after the plan was
    made, a plan generated from the loaded history uses none of the first
    plan's recipes (given that the persisted text parses back). *)
Theorem no_repeat_within_30_days (random1 random2 : nat -> nat)
    (now1 now2 now3 : Z) (request1 request2 : PlannerRequest.t)
    (history loaded : gmap string Z)
    (localStorage localStorage' : gmap string string)
    (response1 response2 : PlannerResponse.t) :
  generateWeeklyPlan recipes random1 now1 formatDay localeCompare
    request1 history = Ok response1 →
  parse (stringify (PlannerResponse.updatedHistory response1))
  = Ok (PlannerResponse.updatedHistory response1) →
  stringify (PlannerResponse.updatedHistory response1) ≠ "" →
  now2 - 2592000000 <= now1 →
  loadRecentHistory true parse stringify now2
    (persistHistory true stringify
       (PlannerResponse.updatedHistory response1) localStorage)
  = Ok (loaded, localStorage') →
  generateWeeklyPlan recipes random2 now3 formatDay localeCompare
    request2 loaded = Ok response2 →
  ∀ meal1 meal2,
    meal1 ∈ PlannerResponse.meals response1 →
    meal2 ∈ PlannerResponse.meals response2 →
    Recipe.id (PlannedMeal.recipe meal1) ≠ Recipe.id (PlannedMeal.recipe meal2).
Proof.
  intros H1 Hparse Hne Hsoon Hload H2 meal1 meal2 Hm1 Hm2 Hid.
  pose proof (load_after_persist _ _ _ _ _ _ _ Hparse Hne Hload) as Hloaded.
  apply generate_Ok in H1 as (plan1 & Hperm1 & _ & Hup & _).
  apply generate_Ok in H2 as (plan2 & Hperm2 & _ & _ & _ & _ & Hall2 & _).
  assert (PlannedMeal.recipe meal2 ∈ plan2) as Hr2.
  { rewrite <- Hperm2. unfold planned. apply list_elem_of_fmap. by exists meal2. }
  destruct (Hall2 _ Hr2) as [_ Hfresh]. apply Hfresh.
  apply elem_of_dom. exists now1. apply Hloaded. split; [|done].
  rewrite Hup, record_history_lookup.
  rewrite bool_decide_eq_true_2; [done|].
  rewrite <- Hid. apply elem_of_ids. exists (PlannedMeal.recipe meal1).
  split; [|done]. rewrite <- Hperm1. unfold planned.
  apply list_elem_of_fmap. by exists meal1.
Qed.

(** X23. After 30 days the recipes of a plan are forgotten: a history loaded
    later than that holds none of the plan's identifiers, so they may be
    planned again. *)
Theorem plan_forgotten_after_30_days (random : nat -> nat) (now1 now2 : Z)
    (request : PlannerRequest.t) (history loaded : gmap string Z)
    (localStorage localStorage' : gmap string string)
    (response : PlannerResponse.t) :
  generateWeeklyPlan recipes random now1 formatDay localeCompare
    request history = Ok response →
  parse (stringify (PlannerResponse.updatedHistory response))
  = Ok (PlannerResponse.updatedHistory response) →
  stringify (PlannerResponse.updatedHistory response) ≠ "" →
  now1 < now2 - 2592000000 →
  loadRecentHistory true parse stringify now2
    (persistHistory true stringify
       (PlannerResponse.updatedHistory response) localStorage)
  = Ok (loaded, localStorage') →
  ∀ meal, meal ∈ PlannerResponse.meals response →
          loaded !! Recipe.id (PlannedMeal.recipe meal) = None.
Proof.
  intros H Hparse Hne Hlate Hload meal Hmeal.
  pose proof (load_after_persist _ _ _ _ _ _ _ Hparse Hne Hload) as Hloaded.
  apply generate_Ok in H as (plan & Hperm & _ & Hup & _).
  destruct (loaded !! Recipe.id (PlannedMeal.recipe meal)) as [ts|] eqn:Hts;
    [|done].
  apply Hloaded in Hts as [Hts Hge]. exfalso.
  rewrite Hup, record_history_lookup in Hts.
  rewrite bool_decide_eq_true_2 in Hts.
  - injection Hts as <-. lia.
  - apply elem_of_ids. exists (PlannedMeal.recipe meal). split; [|done].
    rewrite <- Hperm. unfold planned. apply list_elem_of_fmap. by exists meal.
Qed.
End RetentionProperties.

(** ** The further properties, on the sample runs *)

Lemma slot_selection_contract_witness :
  pickRecipes Sample.catalog Sample.draws dinner 2 ∅ false (mkState ∅ 0)
  = Ok ([Sample.kofta; Sample.sea_bass], true,
        mkState {["kofta"; "sea-bass"]} 3)
  ∧ NoDup (ids [Sample.kofta; Sample.sea_bass])
  ∧ Z.of_nat (length [Sample.kofta; Sample.sea_bass]) = 2.
Proof.
  assert (pickRecipes Sample.catalog Sample.draws dinner 2 ∅ false (mkState ∅ 0)
          = Ok ([Sample.kofta; Sample.sea_bass], true,
                mkState {["kofta"; "sea-bass"]} 3)) as Hrun by (by vm_compute).
  split; [exact Hrun|].
  destruct (slot_selection_contract _ _ _ _ _ _ _ _ _ _ Hrun)
    as (_ & Hnd & _ & Hlen).
  split; [exact Hnd|]. apply Hlen. lia.
Defined.

Lemma slot_selection_beef_flag_witness :
  pickRecipes Sample.catalog Sample.zeros dinner 2 ∅ false (mkState ∅ 0)
  = Ok ([Sample.carne_asada; Sample.sea_bass], true,
        mkState {["carne-asada"; "sea-bass"]} 3)
  ∧ (beef_count [Sample.carne_asada; Sample.sea_bass] ≤ 1)%nat.
Proof.
  assert (pickRecipes Sample.catalog Sample.zeros dinner 2 ∅ false (mkState ∅ 0)
          = Ok ([Sample.carne_asada; Sample.sea_bass], true,
                mkState {["carne-asada"; "sea-bass"]} 3)) as Hrun
    by (by vm_compute).
  split; [exact Hrun|].
  by destruct (slot_selection_beef_flag _ _ _ _ _ _ _ _ _ _ Hrun) as (_ & ? & _).
Defined.

Lemma slot_selection_nothing_requested_witness :
  -1 <= 0
  ∧ ∃ n, pickRecipes Sample.catalog Sample.draws lunch (-1) ∅ true
           (mkState {["kofta"]} 0)
         = Ok ([], true, mkState {["kofta"]} n).
Proof.
  split; [lia|].
  destruct (slot_selection_nothing_requested Sample.catalog Sample.draws lunch
              (-1) ∅ true (mkState {["kofta"]} 0)) as [n Hn]; [lia|].
  exists n. exact Hn.
Defined.

Lemma repair_fails_iff_witness :
  ensureSpanishOrMexican Sample.catalog Sample.draws [Sample.greek_salad]
    {["gazpacho"]} false (mkState {["greek-salad"]} 0)
  = Throw "No Spanish or Mexican recipes available that satisfy the rules."
  ∧ ∀ x, x ∈ [Sample.greek_salad] →
         ¬ admits Sample.catalog {["gazpacho"]} {["greek-salad"]} false x.
Proof.
  assert (ensureSpanishOrMexican Sample.catalog Sample.draws
            [Sample.greek_salad] {["gazpacho"]} false
            (mkState {["greek-salad"]} 0)
          = Throw "No Spanish or Mexican recipes available that satisfy the rules.")
    as Hrun by (by vm_compute).
  split; [exact Hrun|].
  by destruct (proj1 (proj2 (repair_fails_iff Sample.catalog Sample.draws
                               [Sample.greek_salad] {["gazpacho"]} false
                               (mkState {["greek-salad"]} 0))) Hrun).
Defined.

Lemma date_labels_cover_the_days_witness :
  buildDateLabels Sample.formatDay None 5 = Ok ["Mon"; "Tue"; "Wed"; "Thu"; "Fri"]
  ∧ length ["Mon"; "Tue"; "Wed"; "Thu"; "Fri"] = Z.to_nat 5.
Proof.
  assert (buildDateLabels Sample.formatDay None 5
          = Ok ["Mon"; "Tue"; "Wed"; "Thu"; "Fri"]) as Hrun by reflexivity.
  split; [exact Hrun|].
  by destruct (proj1 (date_labels_cover_the_days Sample.formatDay None 5) _ Hrun).
Defined.

Lemma meals_grouped_by_type_witness :
  Sample.run = Ok Sample.response
  ∧ map PlannedMeal.mealType (PlannerResponse.meals Sample.response)
    = [breakfast; lunch; dinner; dinner].
Proof.
  split; [by vm_compute|].
  destruct (meals_grouped_by_type Sample.catalog Sample.draws Sample.now
              Sample.formatDay Sample.localeCompare Sample.request
              Sample.history Sample.response) as [Htypes _]; [by vm_compute|].
  exact Htypes.
Defined.

Lemma day_index_restarts_per_type_witness :
  Sample.run = Ok Sample.response
  ∧ map PlannedMeal.dayIndex (PlannerResponse.meals Sample.response)
    = [0; 0; 0; 1]%nat.
Proof.
  split; [by vm_compute|].
  apply (day_index_restarts_per_type Sample.catalog Sample.draws Sample.now
           Sample.formatDay Sample.localeCompare Sample.request
           Sample.history Sample.response).
  by vm_compute.
Defined.

Lemma date_label_of_own_day_witness :
  Sample.run = Ok Sample.response
  ∧ ∀ meal, meal ∈ PlannerResponse.meals Sample.response →
            Sample.formatDay None (PlannedMeal.dayIndex meal)
            = Some (PlannedMeal.dateLabel meal).
Proof.
  split; [by vm_compute|].
  apply (date_label_of_own_day Sample.catalog Sample.draws Sample.now
           Sample.formatDay Sample.localeCompare Sample.request
           Sample.history Sample.response).
  by vm_compute.
Defined.

Lemma plan_from_catalog_witness :
  Sample.run = Ok Sample.response
  ∧ ∀ meal, meal ∈ PlannerResponse.meals Sample.response →
            PlannedMeal.recipe meal ∈ Sample.catalog.
Proof.
  split; [by vm_compute|].
  apply (plan_from_catalog Sample.catalog Sample.formatDay Sample.localeCompare
           Sample.draws Sample.now Sample.request Sample.history
           Sample.response).
  by vm_compute.
Defined.

Lemma generate_errors_witness :
  generateWeeklyPlan Sample.catalog Sample.draws Sample.now Sample.formatDay
    Sample.localeCompare (PlannerRequest.mk 0 3 0 None) ∅
  = Throw "Not enough lunch recipes available without repeats or beef overage."
  ∧ ("Not enough lunch recipes available without repeats or beef overage."
     = "Not enough breakfast recipes available without repeats or beef overage."
     ∨ "Not enough lunch recipes available without repeats or beef overage."
       = "Not enough lunch recipes available without repeats or beef overage."
     ∨ "Not enough lunch recipes available without repeats or beef overage."
       = "Not enough dinner recipes available without repeats or beef overage."
     ∨ "Not enough lunch recipes available without repeats or beef overage."
       = "No Spanish or Mexican recipes available that satisfy the rules."
     ∨ "Not enough lunch recipes available without repeats or beef overage."
       = "Invalid time value").
Proof.
  assert (generateWeeklyPlan Sample.catalog Sample.draws Sample.now
            Sample.formatDay Sample.localeCompare
            (PlannerRequest.mk 0 3 0 None) ∅
          = Throw "Not enough lunch recipes available without repeats or beef overage.")
    as Hrun by (by vm_compute).
  split; [exact Hrun|].
  exact (generate_errors Sample.catalog Sample.formatDay Sample.localeCompare
           Sample.draws Sample.now (PlannerRequest.mk 0 3 0 None) ∅ _ Hrun).
Defined.

Lemma successive_plans_share_no_recipe_witness :
  Sample.run = Ok Sample.response
  ∧ SampleStore.second_run = Ok SampleStore.second_response
  ∧ ∀ meal1 meal2,
      meal1 ∈ PlannerResponse.meals Sample.response →
      meal2 ∈ PlannerResponse.meals SampleStore.second_response →
      Recipe.id (PlannedMeal.recipe meal1) ≠ Recipe.id (PlannedMeal.recipe meal2).
Proof.
  split; [by vm_compute|]. split; [by vm_compute|].
  apply (successive_plans_share_no_recipe Sample.catalog Sample.formatDay
           Sample.localeCompare Sample.draws Sample.zeros Sample.now
           SampleStore.next_week Sample.request (PlannerRequest.mk 0 0 1 None)
           Sample.history Sample.response SampleStore.second_response);
    by vm_compute.
Defined.

Lemma shopping_line_follows_first_entry_witness :
  ShoppingLineItem.mk "Olive oil" None (Some "tbsp")
  ∈ aggregateShopping Sample.localeCompare [Sample.gazpacho; Sample.greek_salad]
  ∧ ∃ i, first_with "olive oil"
           (all_ingredients [Sample.gazpacho; Sample.greek_salad]) = Some i
         ∧ "Olive oil" = Ingredient.item i.
Proof.
  assert (ShoppingLineItem.mk "Olive oil" None (Some "tbsp")
          ∈ aggregateShopping Sample.localeCompare
              [Sample.gazpacho; Sample.greek_salad]) as Hline
    by (vm_compute; set_solver).
  split; [exact Hline|].
  destruct (shopping_line_follows_first_entry Sample.localeCompare _ _ Hline)
    as (i & Hfirst & Hitem & _).
  exists i. split; [exact Hfirst|exact Hitem].
Defined.

Lemma shopping_line_without_quantity_witness :
  ShoppingLineItem.mk "Olive oil" None (Some "tbsp")
  ∈ aggregateShopping Sample.localeCompare [Sample.gazpacho; Sample.greek_salad]
  ∧ Ingredient.quantity (Sample.entry "olive oil" None (Some "tbsp")) = None.
Proof.
  assert (ShoppingLineItem.mk "Olive oil" None (Some "tbsp")
          ∈ aggregateShopping Sample.localeCompare
              [Sample.gazpacho; Sample.greek_salad]) as Hline
    by (vm_compute; set_solver).
  split; [exact Hline|].
  apply (shopping_line_without_quantity Sample.localeCompare _ _ Hline
           eq_refl Sample.greek_salad).
  - set_solver.
  - unfold Sample.greek_salad, Sample.recipe. simpl. set_solver.
  - reflexivity.
Defined.

Lemma shopping_list_sorted_witness :
  (∀ a b, Sample.localeCompare a b > 0 → Sample.localeCompare b a <= 0)
  ∧ Sorted (line_le Sample.localeCompare)
      (aggregateShopping Sample.localeCompare Sample.catalog).
Proof.
  assert (∀ a b, Sample.localeCompare a b > 0 → Sample.localeCompare b a <= 0)
    as Htotal.
  { intros a b. unfold Sample.localeCompare.
    rewrite (String.compare_antisym (toLowerCase a) (toLowerCase b)).
    destruct (String.compare (toLowerCase b) (toLowerCase a)); simpl; lia. }
  split; [exact Htotal|].
  apply (shopping_list_sorted Sample.localeCompare Sample.catalog Htotal).
Defined.

Lemma load_keeps_the_last_30_days_witness :
  SampleStore.localStorage !! HISTORY_KEY = Some "{tortilla:1766000000000;}"
  ∧ SampleStore.parse "{tortilla:1766000000000;}" = Ok Sample.history
  ∧ ∃ history localStorage',
      loadRecentHistory true SampleStore.parse SampleStore.stringify
        SampleStore.week_later SampleStore.localStorage
      = Ok (history, localStorage')
      ∧ (∀ id ts, history !! id = Some ts
                  ↔ Sample.history !! id = Some ts
                    ∧ SampleStore.week_later - 2592000000 <= ts).
Proof.
  split; [by vm_compute|]. split; [by vm_compute|].
  destruct (load_keeps_the_last_30_days SampleStore.parse SampleStore.stringify
              SampleStore.week_later SampleStore.localStorage
              "{tortilla:1766000000000;}" Sample.history)
    as (history & localStorage' & Hload & Hrecent & _);
    [by vm_compute|done|by vm_compute|].
  exists history, localStorage'. split; [exact Hload|exact Hrecent].
Defined.

Lemma load_without_history_witness :
  loadRecentHistory true SampleStore.parse SampleStore.stringify
    SampleStore.week_later ∅ = Ok (∅, ∅)
  ∧ loadRecentHistory true SampleStore.parse SampleStore.stringify
      SampleStore.week_later {[ HISTORY_KEY := "not json" ]}
    = Throw "Unexpected token".
Proof.
  destruct (load_without_history SampleStore.parse SampleStore.stringify true
              SampleStore.week_later ∅) as [Hempty _].
  destruct (load_without_history SampleStore.parse SampleStore.stringify true
              SampleStore.week_later {[ HISTORY_KEY := "not json" ]})
    as [_ Hthrow].
  split.
  - apply Hempty. right. left. by vm_compute.
  - apply (Hthrow "not json"); [done|by vm_compute|done|by vm_compute].
Defined.

Lemma persist_then_load_witness :
  SampleStore.parse (SampleStore.stringify Sample.history) = Ok Sample.history
  ∧ loadRecentHistory true SampleStore.parse SampleStore.stringify
      SampleStore.week_later
      (persistHistory true SampleStore.stringify Sample.history ∅)
    = Ok (Sample.history,
          persistHistory true SampleStore.stringify Sample.history ∅).
Proof.
  split; [by vm_compute|].
  apply (persist_then_load SampleStore.parse SampleStore.stringify
           SampleStore.week_later Sample.history ∅).
  - by vm_compute.
  - by vm_compute.
  - intros id ts H. unfold Sample.history in H.
    apply lookup_singleton_Some in H as [_ <-].
    unfold SampleStore.week_later. lia.
Defined.

Lemma no_repeat_within_30_days_witness :
  Sample.run = Ok Sample.response
  ∧ SampleStore.next_week - 2592000000 <= Sample.now
  ∧ loadRecentHistory true SampleStore.parse SampleStore.stringify
      SampleStore.next_week SampleStore.saved
    = Ok (PlannerResponse.updatedHistory Sample.response, SampleStore.saved)
  ∧ SampleStore.second_run = Ok SampleStore.second_response
  ∧ ∀ meal1 meal2,
      meal1 ∈ PlannerResponse.meals Sample.response →
      meal2 ∈ PlannerResponse.meals SampleStore.second_response →
      Recipe.id (PlannedMeal.recipe meal1) ≠ Recipe.id (PlannedMeal.recipe meal2).
Proof.
  split; [by vm_compute|]. split; [by vm_compute|].
  split; [by vm_compute|]. split; [by vm_compute|].
  apply (no_repeat_within_30_days Sample.catalog Sample.formatDay
           Sample.localeCompare SampleStore.parse SampleStore.stringify
           Sample.draws Sample.zeros Sample.now SampleStore.next_week
           SampleStore.next_week Sample.request (PlannerRequest.mk 0 0 1 None)
           Sample.history (PlannerResponse.updatedHistory Sample.response)
           ∅ SampleStore.saved Sample.response SampleStore.second_response);
    by vm_compute.
Defined.

Lemma plan_forgotten_after_30_days_witness :
  Sample.run = Ok Sample.response
  ∧ Sample.now < SampleStore.next_quarter - 2592000000
  ∧ loadRecentHistory true SampleStore.parse SampleStore.stringify
      SampleStore.next_quarter SampleStore.saved
    = Ok (∅, <[HISTORY_KEY := SampleStore.stringify ∅]> SampleStore.saved)
  ∧ ∀ meal, meal ∈ PlannerResponse.meals Sample.response →
            (∅ : gmap string Z) !! Recipe.id (PlannedMeal.recipe meal) = None.
Proof.
  split; [by vm_compute|]. split; [by vm_compute|].
  split; [by vm_compute|].
  apply (plan_forgotten_after_30_days Sample.catalog Sample.formatDay
           Sample.localeCompare SampleStore.parse SampleStore.stringify
           Sample.draws Sample.now SampleStore.next_quarter Sample.request
           Sample.history ∅ ∅
           (<[HISTORY_KEY := SampleStore.stringify ∅]> SampleStore.saved)
           Sample.response);
    by vm_compute.
Defined.

(** ** Rounding of summed quantities *)


